(** * Zulip bots: conversation keys, the request registry and its snapshot,
      the message parser, the arXiv update scan and Kita's memory.

    A shallow embedding of
      - [bots/message.py]         (the reply target [Message]),
      - [bots/arxiv/requests.py]  ([Request], [RequestList]),
      - [bots/arxiv/arxiv.py]     (conversation key, update scan),
      - [bots/kita/kita.py]       (conversation key, conversation memory),
      - [bots/parser.py]          ([parse_zulip_message]),
    followed by the properties proved about them.

    Conventions.
      - A Python [str] is the Rocq [string] of its UTF-8 bytes.  Where the
        code looks at characters ([strip], the pattern of the parser, the
        iteration of a string) the bytes are read as code points, and the
        character classes are those of Python on all of Unicode.
      - The table of [str.isalnum] above the ASCII range, which the
        interpreter takes from its Unicode database, is a parameter.
      - A Python [int] is a [Z].
      - A Python exception is a value of [exn]; code that can raise returns
        a [result].
      - A Python [dict] is an association list in insertion order, with the
        update-in-place behaviour of item assignment. *)

From Stdlib Require Import List String Ascii ZArith Bool Lia Permutation Sorted.
From Stdlib Require Import DecimalString.
Import ListNotations.

Local Open Scope string_scope.
Local Open Scope list_scope.

Set Implicit Arguments.

(* ===================================================================== *)
(** * Exceptions and results *)
(* ===================================================================== *)

(** The exception classes the modelled code can meet.  All of them derive
    from [Exception]. *)
Inductive exn : Type :=
| KeyError
| TypeError
| ValueError
| AttributeError
| IndexError
| OSError
| JSONDecodeError
| OverflowError
| DatabaseError.                (* [sqlite3.Error] *)

(** [except Exception] catches every one of them. *)
Definition is_Exception (e : exn) : bool := true.

Inductive result (A : Type) : Type :=
| Ok (a : A)
| Raise (e : exn).

Arguments Ok {A} a.
Arguments Raise {A} e.

Definition bind {A B : Type} (m : result A) (k : A -> result B) : result B :=
  match m with
  | Ok a => k a
  | Raise e => Raise e
  end.

Notation "x <- m ;; k" := (bind m (fun x => k))
  (at level 61, m at next level, right associativity).

(* ===================================================================== *)
(** * Python dictionaries with string keys *)
(* ===================================================================== *)

Section Dict.
Variable V : Type.

Definition dict := list (string * V).

Fixpoint dict_get (k : string) (d : dict) : option V :=
  match d with
  | [] => None
  | (k', v) :: d' => if String.eqb k k' then Some v else dict_get k d'
  end.

Definition dict_mem (k : string) (d : dict) : bool :=
  match dict_get k d with Some _ => true | None => false end.

(** [d[k] = v]: an existing key keeps its position, a new key goes last. *)
Fixpoint dict_set (k : string) (v : V) (d : dict) : dict :=
  match d with
  | [] => [(k, v)]
  | (k', v') :: d' =>
      if String.eqb k k' then (k', v) :: d' else (k', v') :: dict_set k v d'
  end.

(** [del d[k]] *)
Fixpoint dict_del (k : string) (d : dict) : dict :=
  match d with
  | [] => []
  | (k', v') :: d' =>
      if String.eqb k k' then d' else (k', v') :: dict_del k d'
  end.

Definition dict_keys (d : dict) : list string := map fst d.
Definition dict_values (d : dict) : list V := map snd d.
End Dict.

(* ===================================================================== *)
(** * Characters *)
(* ===================================================================== *)

Local Open Scope Z_scope.

Definition byte (a : ascii) : Z := Z.of_N (N_of_ascii a).

Definition char (n : Z) : ascii := ascii_of_N (Z.to_N n).

(** The six bits a continuation byte carries. *)
Definition tail_bits (a : ascii) : option Z :=
  if (128 <=? byte a) && (byte a <=? 191) then Some (byte a - 128) else None.

(** The code point of a sequence of two, three or four bytes, when the
    bytes are one character in UTF-8 (the forms longer than needed are
    none). *)
Definition two (a b : ascii) : option Z :=
  match tail_bits b with
  | Some y =>
      if (194 <=? byte a) && (byte a <=? 223)
      then Some ((byte a - 192) * 64 + y)
      else None
  | None => None
  end.

Definition three (a b c : ascii) : option Z :=
  match tail_bits b, tail_bits c with
  | Some y, Some z =>
      let n := ((byte a - 224) * 64 + y) * 64 + z in
      if (224 <=? byte a) && (byte a <=? 239) && (2048 <=? n)
      then Some n
      else None
  | _, _ => None
  end.

Definition four (a b c d : ascii) : option Z :=
  match tail_bits b, tail_bits c, tail_bits d with
  | Some y, Some z, Some w =>
      let n := (((byte a - 240) * 64 + y) * 64 + z) * 64 + w in
      if (240 <=? byte a) && (byte a <=? 244) && (65536 <=? n)
         && (n <=? 1114111)
      then Some n
      else None
  | _, _, _ => None
  end.

(** A byte that starts no character of the text stands for itself, as
    [stray a], which is no code point and belongs to no class. *)
Definition stray (a : ascii) : Z := - byte a.

(** The characters of a [str], as code points. *)
Fixpoint code_points (s : string) : list Z :=
  match s with
  | EmptyString => []
  | String a r =>
      if byte a <? 128 then byte a :: code_points r
      else
        match r with
        | EmptyString => [stray a]
        | String b r2 =>
            match two a b with
            | Some n => n :: code_points r2
            | None =>
                match r2 with
                | EmptyString => stray a :: code_points r
                | String c r3 =>
                    match three a b c with
                    | Some n => n :: code_points r3
                    | None =>
                        match r3 with
                        | EmptyString => stray a :: code_points r
                        | String d r4 =>
                            match four a b c d with
                            | Some n => n :: code_points r4
                            | None => stray a :: code_points r
                            end
                        end
                    end
                end
            end
        end
  end.

(** The bytes of one character. *)
Definition utf8 (n : Z) : string :=
  if n <? 0 then String (char (- n)) EmptyString
  else if n <? 128 then String (char n) EmptyString
  else if n <? 2048 then
    String (char (192 + n / 64)) (String (char (128 + n mod 64)) EmptyString)
  else if n <? 65536 then
    String (char (224 + n / 4096))
      (String (char (128 + (n / 64) mod 64))
         (String (char (128 + n mod 64)) EmptyString))
  else
    String (char (240 + n / 262144))
      (String (char (128 + (n / 4096) mod 64))
         (String (char (128 + (n / 64) mod 64))
            (String (char (128 + n mod 64)) EmptyString))).

(** The [str] of a list of characters. *)
Definition text (l : list Z) : string := String.concat EmptyString (map utf8 l).

(** [str.isspace] on one character, which is also what [\s] matches. *)
Definition is_space (c : Z) : bool :=
  (9 <=? c) && (c <=? 13) || (28 <=? c) && (c <=? 32)
  || (c =? 133) || (c =? 160) || (c =? 5760)
  || (8192 <=? c) && (c <=? 8202) || (c =? 8232) || (c =? 8233)
  || (c =? 8239) || (c =? 8287) || (c =? 12288).

(** [\w]: the underscore and what [str.isalnum] takes.  On the ASCII range
    these are the letters and the digits; above it [isalnum] is the table
    of the interpreter's Unicode database. *)
Definition is_word (isalnum : Z -> bool) (c : Z) : bool :=
  if c <? 128
  then (48 <=? c) && (c <=? 57) || (65 <=? c) && (c <=? 90)
       || (97 <=? c) && (c <=? 122) || (c =? 95)
  else isalnum c.

Definition newline : ascii := ascii_of_nat 10.

(** What the dot of a pattern matches. *)
Definition not_newline (c : Z) : bool := negb (c =? 10).

Local Close Scope Z_scope.

Section Runs.
Variable A : Type.

(** The longest prefix of [l] whose items satisfy [p], and the rest. *)
Fixpoint span (p : A -> bool) (l : list A) : list A * list A :=
  match l with
  | [] => ([], [])
  | c :: l' =>
      if p c then let (a, b) := span p l' in (c :: a, b)
      else ([], l)
  end.
End Runs.

(** The rest of [l] after [prefix], when [l] starts with it. *)
Fixpoint drop_prefix (prefix l : list Z) : option (list Z) :=
  match prefix, l with
  | [], _ => Some l
  | _ :: _, [] => None
  | x :: prefix', y :: l' =>
      if Z.eqb x y then drop_prefix prefix' l' else None
  end.

Definition lstrip_points (l : list Z) : list Z := snd (span is_space l).

Definition rstrip_points (l : list Z) : list Z := rev (lstrip_points (rev l)).

Definition strip_points (l : list Z) : list Z :=
  rstrip_points (lstrip_points l).

(** [s.strip()] *)
Definition strip (s : string) : string := text (strip_points (code_points s)).

(* ===================================================================== *)
(** * JSON values, as [json.load] returns them *)
(* ===================================================================== *)

(** Numbers are the integer ones; an object lists its items in insertion
    order ([json.load] never yields a repeated key, and [dict_get] reads the
    first). *)
#[warnings="-register-all"]
Inductive json : Type :=
| JNull
| JBool (b : bool)
| JInt (z : Z)
| JStr (s : string)
| JArr (l : list json)
| JObj (o : list (string * json)).

(** [v[k]] for a string [k]. *)
Definition subscript (v : json) (k : string) : result json :=
  match v with
  | JObj o => match dict_get k o with
              | Some x => Ok x
              | None => Raise KeyError
              end
  | _ => Raise TypeError
  end.

(** [v.get(k, default)] *)
Definition get_default (v : json) (k : string) (default : json) : result json :=
  match v with
  | JObj o => match dict_get k o with
              | Some x => Ok x
              | None => Ok default
              end
  | _ => Raise AttributeError
  end.

(** The one-character strings of [s], in order. *)
Definition chars (s : string) : list string := map utf8 (code_points s).

(** [iter(v)]: the items a [for] loop or [tuple(v)] goes through. *)
Definition iterate (v : json) : result (list json) :=
  match v with
  | JArr l => Ok l
  | JObj o => Ok (map JStr (dict_keys o))
  | JStr s => Ok (map JStr (chars s))
  | _ => Raise TypeError
  end.

(** [hash(v)] raises [TypeError] on lists and dicts. *)
Definition hashable (v : json) : bool :=
  match v with
  | JArr _ | JObj _ => false
  | _ => true
  end.

(* ===================================================================== *)
(** * [bots/message.py]: the reply target *)
(* ===================================================================== *)

Module Message.

(** [to: list[str] | str] *)
Inductive target : Type :=
| Addresses (emails : list string)
| Stream (name : string).

Record t : Type := mk {
  type : string;
  subject : option string;
  to : target
}.

Definition target_to_json (x : target) : json :=
  match x with
  | Addresses emails => JArr (map JStr emails)
  | Stream name => JStr name
  end.

Definition subject_to_json (x : option string) : json :=
  match x with
  | Some s => JStr s
  | None => JNull
  end.

(** [asdict(self)], as [json.dump] writes it. *)
Definition to_dict (m : t) : json :=
  JObj [("type", JStr (type m));
        ("subject", subject_to_json (subject m));
        ("to", target_to_json (to m))].

(** Reading a loaded value at a declared type; [None] when the value is
    of another type. *)
Definition as_str (v : json) : option string :=
  match v with
  | JStr s => Some s
  | _ => None
  end.

Fixpoint as_str_list (l : list json) : option (list string) :=
  match l with
  | [] => Some []
  | v :: l' =>
      match as_str v, as_str_list l' with
      | Some s, Some ss => Some (s :: ss)
      | _, _ => None
      end
  end.

Definition as_subject (v : json) : option (option string) :=
  match v with
  | JNull => Some None
  | JStr s => Some (Some s)
  | _ => None
  end.

Definition as_target (v : json) : option target :=
  match v with
  | JStr s => Some (Stream s)
  | JArr l => option_map Addresses (as_str_list l)
  | _ => None
  end.

Definition typed (ty sub tgt : json) : option t :=
  match as_str ty, as_subject sub, as_target tgt with
  | Some ty', Some sub', Some tgt' => Some (mk ty' sub' tgt')
  | _, _, _ => None
  end.

(** [Message.from_dict(data)].  The constructor checks no type: the
    result is [Ok None] when it builds a message with a field outside the
    declared types, which [t] does not represent. *)
Definition from_dict (data : json) : result (option t) :=
  ty <- subscript data "type" ;;
  sub <- get_default data "subject" JNull ;;
  tgt <- subscript data "to" ;;
  Ok (typed ty sub tgt).

End Message.

(* ===================================================================== *)
(** * [bots/arxiv/requests.py]: requests and their registry *)
(* ===================================================================== *)

Module Request.

Record t : Type := mk {
  id : list string;          (* the conversation key, [tuple[str, ...]] *)
  uuid : string;
  query : string;
  owner_id : Z;
  message : Message.t
}.

(** [asdict(self)] with ["message"] replaced by [message.to_dict()];
    [json.dump] writes the tuple [id] as an array. *)
Definition to_dict (r : t) : json :=
  JObj [("id", JArr (map JStr (id r)));
        ("uuid", JStr (uuid r));
        ("query", JStr (query r));
        ("owner_id", JInt (owner_id r));
        ("message", Message.to_dict (message r))].

Definition as_int (v : json) : option Z :=
  match v with
  | JInt z => Some z
  | _ => None
  end.

Definition typed (u : json) (i : list json) (q o : json)
           (m : option Message.t) : option t :=
  match Message.as_str u, Message.as_str_list i, Message.as_str q,
        as_int o, m with
  | Some u', Some i', Some q', Some o', Some m' => Some (mk i' u' q' o' m')
  | _, _, _, _, _ => None
  end.

(** [Request.from_dict(data)]; [fresh] is the value of
    [str(uuid.uuid4())], drawn before [data.get] is called.  As for
    messages, [Ok None] stands for a request built with a field outside
    its declared type. *)
Definition from_dict (fresh : string) (data : json) : result (option t) :=
  u <- get_default data "uuid" (JStr fresh) ;;
  i_src <- subscript data "id" ;;
  i <- iterate i_src ;;
  q <- subscript data "query" ;;
  o <- subscript data "owner_id" ;;
  m_src <- subscript data "message" ;;
  m <- Message.from_dict m_src ;;
  Ok (typed u i q o m).

(** [__eq__]: two requests are equal when their conversation keys are. *)
Definition eqb (self other : t) : bool :=
  if list_eq_dec string_dec (id self) (id other) then true else false.

End Request.

(** ** The file system, as far as the snapshot file is concerned *)

(** What a path holds:
      - [NoFile]: [file_path.exists()] is false;
      - [Unreadable]: opening or reading the file raises [OSError];
      - [Malformed]: the text is not JSON, [json.load] raises
        [JSONDecodeError];
      - [Snapshot j]: [json.load] returns [j];
      - [Inaccessible]: the status of the path cannot be read, and
        [file_path.exists()] itself raises [OSError] (a name that is too
        long, a directory that may not be searched). *)
Inductive file : Type :=
| NoFile
| Unreadable
| Malformed
| Snapshot (j : json)
| Inaccessible.

(** What writing a path comes to:
      - [OpenFails]: [open(path, "w")] raises, and the path keeps what it
        held;
      - [DumpFails remains]: the file is opened, which empties it, and
        [json.dump] or closing the file raises; [remains] is what the path
        holds then;
      - [Written]: the text is written and the file closed. *)
Inductive write_outcome : Type :=
| OpenFails
| DumpFails (remains : file)
| Written.

Record filesystem : Type := mkfs {
  file_at : string -> file;
  on_write : string -> write_outcome
}.

(** Does a write to [path] go through? *)
Definition can_write (fs : filesystem) (path : string) : bool :=
  match on_write fs path with
  | Written => true
  | OpenFails | DumpFails _ => false
  end.

Definition put (fs : filesystem) (path : string) (f : file) : filesystem :=
  mkfs (fun p => if String.eqb p path then f else file_at fs p)
       (on_write fs).

Definition write_file (fs : filesystem) (path : string) (j : json)
  : filesystem :=
  put fs path (Snapshot j).

Module RequestList.

(** The lock is not part of the state: every operation below holds it
    from start to end and is one step here. *)
Record t : Type := mk {
  requests : dict Request.t
}.

Definition empty : t := mk [].

(** What [load_from_file] returns: a registry, or ([Untyped]) a registry
    that holds a key or a field outside the declared types, which [t]
    does not represent. *)
Inductive loaded : Type :=
| Typed (rl : t)
| Untyped.

(** [any(r == request for r in self.requests.values())] *)
Definition any_eq (request : Request.t) (d : dict Request.t) : bool :=
  existsb (fun r => Request.eqb r request) (dict_values d).

Definition add (self : t) (request : Request.t) : t * bool :=
  if any_eq request (requests self) then (self, false)
  else (mk (dict_set (Request.uuid request) request (requests self)), true).

Definition remove (self : t) (id : string) : t * bool :=
  if negb (dict_mem id (requests self)) then (self, false)
  else (mk (dict_del id (requests self)), true).

Definition get (self : t) (id : string) : option Request.t :=
  dict_get id (requests self).

Definition ids (self : t) : list string := dict_keys (requests self).

(** [__iter__]: a copy of the values. *)
Definition iter (self : t) : list Request.t := dict_values (requests self).

Definition len (self : t) : nat := List.length (requests self).

(** One round of the comprehension
    [{data["uuid"]: Request.from_dict(data) for data in raw}]: the key,
    then the value, then the store, which hashes the key. *)
Definition load_item (fresh : string) (data : json)
  : result (json * option Request.t) :=
  k <- subscript data "uuid" ;;
  r <- Request.from_dict fresh data ;;
  if hashable k then Ok (k, r) else Raise TypeError.

(** [uuid4 n] is the [n]-th value drawn from [uuid.uuid4()]. *)
Fixpoint load_items (uuid4 : nat -> string) (n : nat) (items : list json)
  : result (list (json * option Request.t)) :=
  match items with
  | [] => Ok []
  | data :: items' =>
      e <- load_item (uuid4 n) data ;;
      es <- load_items uuid4 (S n) items' ;;
      Ok (e :: es)
  end.

(** The dictionary the comprehension builds from its items, when every
    key is a string and every request is typed. *)
Fixpoint build (entries : list (json * option Request.t))
         (acc : dict Request.t) : option (dict Request.t) :=
  match entries with
  | [] => Some acc
  | (JStr k, Some r) :: es => build es (dict_set k r acc)
  | _ :: _ => None
  end.

Definition of_entries (entries : list (json * option Request.t)) : loaded :=
  match build entries [] with
  | Some d => Typed (mk d)
  | None => Untyped
  end.

(** The body of the [try] in [load_from_file]. *)
Definition read_snapshot (uuid4 : nat -> string) (f : file) : result loaded :=
  match f with
  | NoFile | Unreadable | Inaccessible => Raise OSError
  | Malformed => Raise JSONDecodeError
  | Snapshot raw =>
      items <- iterate raw ;;
      entries <- load_items uuid4 0 items ;;
      Ok (of_entries entries)
  end.

Definition is_OSError_or_JSONDecodeError (e : exn) : bool :=
  match e with
  | OSError | JSONDecodeError => true
  | _ => false
  end.

(** [load_from_file]; [file_path.exists()] is called before the [try]. *)
Definition load_from_file (uuid4 : nat -> string) (fs : filesystem)
           (file_path : string) : result loaded :=
  match file_at fs file_path with
  | Inaccessible => Raise OSError
  | NoFile => Ok (Typed empty)
  | f =>
      match read_snapshot uuid4 f with
      | Ok l => Ok l
      | Raise e =>
          if is_OSError_or_JSONDecodeError e then Ok (Typed empty)
          else if is_Exception e then Ok (Typed empty)
          else Raise e
      end
  end.

(** [[r.to_dict() for r in self.requests.values()]] *)
Definition dump (self : t) : json :=
  JArr (map Request.to_dict (dict_values (requests self))).

(** [save_to_file]: the file system after the call.  Whatever the body
    of the [try] raises is caught and logged; the file stays as the failing
    step left it. *)
Definition save_to_file (self : t) (file_path : string) (fs : filesystem)
  : result filesystem :=
  match on_write fs file_path with
  | OpenFails => Ok fs
  | DumpFails f => Ok (put fs file_path f)
  | Written => Ok (write_file fs file_path (dump self))
  end.

End RequestList.

(* ===================================================================== *)
(** * Python built-ins used by the bots *)
(* ===================================================================== *)

(** [str(n)] for an [int]: the decimal digits, with a leading [-] below
    zero. *)
Definition str (n : Z) : string := NilZero.string_of_int (Z.to_int n).

(** [s <= t] on [str]: lexicographic on code points. *)
Definition str_leb (s t : string) : bool := String.leb s t.

(** [sorted(l)]: a stable sort by [leb]. *)
Section Sorted.
Variable A : Type.
Variable leb : A -> A -> bool.

Fixpoint insert (x : A) (l : list A) : list A :=
  match l with
  | [] => [x]
  | y :: l' => if leb x y then x :: l else y :: insert x l'
  end.

Fixpoint sorted (l : list A) : list A :=
  match l with
  | [] => []
  | x :: l' => insert x (sorted l')
  end.
End Sorted.

(** [sep.join(l)] *)
Definition join (sep : string) (l : list string) : string := String.concat sep l.

(* ===================================================================== *)
(** * Zulip message payloads *)
(* ===================================================================== *)

Module Zulip.

(** A participant of a private message: the entries ["id"] and ["email"]
    of the user dict. *)
Record user : Type := mkuser {
  id : Z;
  email : string
}.

(** [message["display_recipient"]]: the participants of a private
    message, or the name of the stream. *)
Inductive recipient : Type :=
| Users (us : list user)
| StreamName (name : string).

Record message : Type := mkmessage {
  type : string;
  display_recipient : recipient;
  subject : string;
  sender_id : Z;
  sender_email : string;
  content : string
}.

(** [user["id"] for user in message["display_recipient"]].  A string is
    iterated by characters, and a character has no ["id"]. *)
Definition participant_ids (r : recipient) : result (list Z) :=
  match r with
  | Users us => Ok (map id us)
  | StreamName EmptyString => Ok []
  | StreamName _ => Raise TypeError
  end.

End Zulip.

(* ===================================================================== *)
(** * [bots/arxiv/arxiv.py] *)
(* ===================================================================== *)

Module Arxiv.

Section Resolver.
(** [str()] of a list of user dicts, the text Python prints for it. *)
Variable users_repr : list Zulip.user -> string.

Definition str_recipient (r : Zulip.recipient) : string :=
  match r with
  | Zulip.StreamName name => name
  | Zulip.Users us => users_repr us
  end.

Definition get_request_id_from_zulip_message (message : Zulip.message)
  : result (list string) :=
  if String.eqb (Zulip.type message) "private" then
    ids <- Zulip.participant_ids (Zulip.display_recipient message) ;;
    Ok (sorted str_leb (map str ids))
  else if String.eqb (Zulip.type message) "stream" then
    Ok [str_recipient (Zulip.display_recipient message);
        Zulip.subject message]
  else Raise ValueError.
End Resolver.

(** One entry of [search.results()]; [published] is an instant, in
    microseconds since the epoch. *)
Record entry : Type := mkentry {
  title : string;
  entry_id : string;
  published : Z
}.

(** [f"- [{result.title}]({result.entry_id})"] *)
Definition line (r : entry) : string :=
  "- [" ++ title r ++ "](" ++ entry_id r ++ ")".

(** The [for] loop of [send_updates_to_single_request], from the lines
    collected so far: it appends a line per result and leaves at the
    first result that is not after [yesterday_7am]. *)
Fixpoint scan (yesterday_7am : Z) (results : list entry)
         (text_lines : list string) : list string :=
  match results with
  | [] => text_lines
  | r :: rest =>
      if (yesterday_7am <? published r)%Z
      then scan yesterday_7am rest (text_lines ++ [line r])
      else text_lines
  end.

(** The scan the specification compares with: every result is visited
    and kept when it is after the cutoff. *)
Definition full_scan (cutoff : Z) (results : list entry) : list string :=
  map line (filter (fun r => (cutoff <? published r)%Z) results).

Definition text_of (text_lines : list string) : string :=
  match text_lines with
  | [] => "No new results found."
  | _ => join (String newline EmptyString) text_lines
  end.

End Arxiv.

(* ===================================================================== *)
(** * [bots/kita/kita.py] *)
(* ===================================================================== *)

Module Kita.

(** A conversation key: the tuple of the participants' ids, or the pair
    of [display_recipient] and [subject]. *)
Inductive conv_key : Type :=
| PrivateKey (ids : list Z)
| StreamKey (r : Zulip.recipient) (subject : string).

Definition get_conversation_id (message : Zulip.message)
  : result (option conv_key) :=
  if String.eqb (Zulip.type message) "private" then
    ids <- Zulip.participant_ids (Zulip.display_recipient message) ;;
    Ok (Some (PrivateKey (sorted Z.leb ids)))
  else if String.eqb (Zulip.type message) "stream" then
    Ok (Some (StreamKey (Zulip.display_recipient message)
                        (Zulip.subject message)))
  else Ok None.

Definition user_eq_dec (x y : Zulip.user) : {x = y} + {x <> y}.
Proof. decide equality; [apply string_dec | apply Z.eq_dec]. Defined.

Definition recipient_eq_dec (x y : Zulip.recipient) : {x = y} + {x <> y}.
Proof.
  decide equality; [apply (list_eq_dec user_eq_dec) | apply string_dec].
Defined.

Definition conv_key_eq_dec (x y : conv_key) : {x = y} + {x <> y}.
Proof.
  decide equality;
    [apply (list_eq_dec Z.eq_dec) | apply string_dec | apply recipient_eq_dec].
Defined.

(** [conv_id == other], for the value [get_conversation_id] returns. *)
Definition conv_id_eqb (x y : option conv_key) : bool :=
  match x, y with
  | None, None => true
  | Some a, Some b => if conv_key_eq_dec a b then true else false
  | _, _ => false
  end.

(** A tuple is hashable when its items are; a list of user dicts is
    not. *)
Definition hashable_id (conv_id : option conv_key) : bool :=
  match conv_id with
  | Some (StreamKey (Zulip.Users _) _) => false
  | _ => true
  end.

(** One entry of a conversation's memory. *)
Record turn : Type := mkturn {
  role : string;
  content : string
}.

Definition maxlen : nat := 10.

(** [deque(maxlen=10).append(x)]: a full deque drops its oldest item. *)
Definition deque_append (d : list turn) (x : turn) : list turn :=
  if (List.length d <? maxlen)%nat then d ++ [x] else skipn 1 d ++ [x].

(** [token_usage], a [defaultdict(int)] keyed by user id: its items, in
    insertion order. *)
Definition usage : Type := list (Z * Z).

Fixpoint usage_get (u : Z) (d : usage) : option Z :=
  match d with
  | [] => None
  | (u', n) :: d' => if Z.eqb u u' then Some n else usage_get u d'
  end.

(** [d[u]]: the value read, and the dictionary afterwards; a missing key is
    stored with the default, 0. *)
Definition usage_read (u : Z) (d : usage) : Z * usage :=
  match usage_get u d with
  | Some n => (n, d)
  | None => (0%Z, d ++ [(u, 0%Z)])
  end.

(** [d[u] = n] *)
Fixpoint usage_set (u n : Z) (d : usage) : usage :=
  match d with
  | [] => [(u, n)]
  | (u', n') :: d' =>
      if Z.eqb u u' then (u', n) :: d' else (u', n') :: usage_set u n d'
  end.

(** The state of the bot, and of what it talks to: the rows of the table
    [token_usage] by user id, whether the database takes a write
    ([sqlite3.connect], the statements and [commit] go through), and the
    replies sent, in order. *)
Record state : Type := mkstate {
  conversation_memory : option conv_key -> list turn; (* defaultdict *)
  token_usage : usage;
  saved_usage : Z -> option Z;
  db_accepts : bool;
  sent : list (Message.t * string)
}.

Definition max_tokens : Z := 1000000.

Definition send (st : state) (reply : Message.t) (text : string) : state :=
  mkstate (conversation_memory st) (token_usage st) (saved_usage st)
          (db_accepts st) (sent st ++ [(reply, text)]).

(** [self.conversation_memory[conv_id].append(x)] *)
Definition remember (st : state) (conv_id : option conv_key) (x : turn)
  : state :=
  mkstate (fun k => if conv_id_eqb k conv_id
                    then deque_append (conversation_memory st conv_id) x
                    else conversation_memory st k)
          (token_usage st) (saved_usage st) (db_accepts st) (sent st).

Definition with_usage (st : state) (d : usage) : state :=
  mkstate (conversation_memory st) d (saved_usage st) (db_accepts st)
          (sent st).

(** [self.token_usage[sender] += n] *)
Definition add_tokens (st : state) (sender n : Z) : state :=
  let (used, d) := usage_read sender (token_usage st) in
  with_usage st (usage_set sender (used + n)%Z d).

(** What SQLite stores in an [INTEGER] column: 64 bits, signed.  Binding
    another [int] raises [OverflowError]. *)
Definition storable (n : Z) : bool :=
  ((- 2 ^ 63 <=? n) && (n <? 2 ^ 63))%Z.

Definition storable_item (item : Z * Z) : bool :=
  storable (fst item) && storable (snd item).

(** [save_token_usage]: an [INSERT OR REPLACE] per item, in one
    transaction, which is rolled back when a statement raises.  A database
    that takes no write raises when it is opened. *)
Definition save_token_usage (st : state) : result state :=
  if negb (db_accepts st) then Raise DatabaseError
  else if forallb storable_item (token_usage st) then
    Ok (mkstate (conversation_memory st) (token_usage st)
                (fun u => match usage_get u (token_usage st) with
                          | Some n => Some n
                          | None => saved_usage st u
                          end)
                (db_accepts st) (sent st))
  else Raise OverflowError.

(** What [client_ai.chat.completions.create] does: it raises, or it
    returns a response with the [message.content] of each choice and,
    when present, [usage.total_tokens]. *)
Inductive completion : Type :=
| Fails (e : exn)
| Response (choices : list (option string)) (total_tokens : option Z).

Definition quota_text : string :=
  "🚫 You have reached the maximum token usage for this month."
  ++ "You can ask Georgios Arampatzis to reset your token usage.".

Definition error_text : string :=
  "Error calling OpenAI API. Please try again later.".

Definition mention : string := "@**kita**".

Definition drop_mention (content : string) : string :=
  if String.prefix mention content
  then strip (substring (String.length mention)
                        (String.length content - String.length mention)
                        content)
  else content.

(** The body of the [try] in [handle_message_to_openai]: the state it
    leaves, and the exception it ends with, if any. *)
Definition complete (create : list turn -> completion) (st : state)
           (sender : Z) (conv_id : option conv_key) (reply : Message.t)
           (messages : list turn) : state * option exn :=
  match create messages with
  | Fails e => (st, Some e)
  | Response choices total_tokens =>
      match choices with
      | [] => (st, Some IndexError)
      | choice :: _ =>
          match choice with
          | None | Some EmptyString => (st, Some ValueError)
          | Some ai_response =>
              let ai_response := strip ai_response in
              match ai_response with
              | EmptyString => (st, Some ValueError)
              | _ =>
                  let st1 := remember st conv_id
                                      (mkturn "assistant" ai_response) in
                  match total_tokens with
                  | Some n =>
                      let st2 := add_tokens st1 sender n in
                      match save_token_usage st2 with
                      | Ok st3 => (send st3 reply ai_response, None)
                      | Raise e => (st2, Some e)
                      end
                  | None => (send st1 reply ai_response, None)
                  end
              end
          end
      end
  end.

Definition handle_message_to_openai (create : list turn -> completion)
           (st : state) (sender : Z) (content : string)
           (conv_id : option conv_key) (reply : Message.t) : result state :=
  let (used, d) := usage_read sender (token_usage st) in
  let st := with_usage st d in
  if (used >? max_tokens)%Z then
    Ok (send st reply quota_text)
  else
    let content := drop_mention content in
    if negb (hashable_id conv_id) then Raise TypeError
    else
      let st1 := remember st conv_id (mkturn "user" content) in
      let messages := conversation_memory st1 conv_id in
      let (st2, failure) :=
        complete create st1 sender conv_id reply messages in
      match failure with
      | None => Ok st2
      | Some e =>
          if is_Exception e then Ok (send st2 reply error_text)
          else Raise e
      end.

End Kita.

(* ===================================================================== *)
(** * [bots/parser.py] *)
(* ===================================================================== *)

Module Parser.

(** [re.match(pattern, message)] for the pattern of the source: an at
    sign, two stars, a run of word characters, two stars, a run of
    white space, and group 1, any run of characters other than a line
    feed.  The result is group 1 of the match, if there is one.  No word
    or white-space character is a star and group 1 may be empty, so the
    greedy runs are the only candidates. *)
Definition re_match (isalnum : Z -> bool) (message : string)
  : option string :=
  match drop_prefix (code_points "@**") (code_points message) with
  | None => None
  | Some rest =>
      let (name, rest) := span (is_word isalnum) rest in
      match name, drop_prefix (code_points "**") rest with
      | _ :: _, Some rest =>
          let (ws, rest) := span is_space rest in
          match ws with
          | [] => None
          | _ :: _ => Some (text (fst (span not_newline rest)))
          end
      | _, _ => None
      end
  end.

(** What [parse_zulip_message] returns besides [None]. *)
Inductive parsed (args : Type) : Type :=
| Prompt (prompt : list string)       (* {"<prompt>": [prompt]} *)
| Help (help_message : string)        (* {"help": True, "help_message": doc} *)
| Args (a : args).                    (* the dict docopt returns *)

Arguments Prompt {args} prompt.
Arguments Help {args} help_message.
Arguments Args {args} a.

(** [except ValueError] also catches its subclasses. *)
Definition is_ValueError (e : exn) : bool :=
  match e with
  | ValueError | JSONDecodeError => true
  | _ => false
  end.

Definition is_help_flag (token : string) : bool :=
  String.eqb token "--help" || String.eqb token "-h".

Section Parse.
(** The table of [str.isalnum] above the ASCII range, and the two library
    calls: [shlex.split], and [docopt], whose result is [None] when it
    leaves with [SystemExit]. *)
Variable isalnum : Z -> bool.
Variable args : Type.
Variable shlex_split : string -> result (list string).
Variable docopt : string -> list string -> option args.

Definition parse_zulip_message (message doc : string)
  : result (option (parsed args)) :=
  match re_match isalnum message with
  | None => Ok None
  | Some group1 =>
      let cmdline := ("bot " ++ strip group1)%string in
      match shlex_split cmdline with
      | Raise e =>
          if is_ValueError e
          then let prompt := strip group1 in Ok (Some (Prompt [prompt]))
          else Raise e
      | Ok tokens =>
          if existsb is_help_flag tokens then Ok (Some (Help doc))
          else
            match docopt doc (tl tokens) with
            | None => Ok (Some (Help doc))
            | Some a => Ok (Some (Args a))
            end
      end
  end.
End Parse.

End Parser.

(* ===================================================================== *)
(** * [bots/message.py]: building and sending a reply *)
(* ===================================================================== *)

Module Outbound.

(** [[user["email"] for user in message["display_recipient"]
      if user["email"] != client_zulip_email]].  As for the ids, a string
    is iterated by characters, and a character has no ["email"]. *)
Definition other_emails (client_zulip_email : string) (r : Zulip.recipient)
  : result (list string) :=
  match r with
  | Zulip.Users us =>
      Ok (filter (fun e => negb (String.eqb e client_zulip_email))
                 (map Zulip.email us))
  | Zulip.StreamName EmptyString => Ok []
  | Zulip.StreamName _ => Raise TypeError
  end.

(** [x in l] on a list of strings. *)
Definition mem (x : string) (l : list string) : bool :=
  existsb (String.eqb x) l.

(** [Message.from_zulip_message(message, client_zulip_email)].  The payload
    record always carries a subject, so [message.get("subject", "arxiv")]
    finds it.  The result is [Ok None] when the message built has a list
    of user dicts for target, which [Message.t] does not represent. *)
Definition from_zulip_message (message : Zulip.message)
           (client_zulip_email : string) : result (option Message.t) :=
  if String.eqb (Zulip.type message) "private" then
    display_recipients <-
      other_emails client_zulip_email (Zulip.display_recipient message) ;;
    let display_recipients :=
      if negb (mem (Zulip.sender_email message) display_recipients)
      then display_recipients ++ [Zulip.sender_email message]
      else display_recipients in
    Ok (Some (Message.mk (Zulip.type message) None
                         (Message.Addresses display_recipients)))
  else
    match Zulip.display_recipient message with
    | Zulip.StreamName name =>
        Ok (Some (Message.mk (Zulip.type message)
                             (Some (Zulip.subject message))
                             (Message.Stream name)))
    | Zulip.Users _ => Ok None
    end.

(** [self.send(text, client)]: the payload handed to
    [client.send_message], which is taken to return; [sent] lists the
    payloads in order, each as the reply target and the content. *)
Definition send (sent : list (Message.t * string)) (self : Message.t)
           (text : string) : list (Message.t * string) :=
  sent ++ [(self, text)].

End Outbound.

(* ===================================================================== *)
(** * [bots/arxiv/arxiv.py]: commands and updates *)
(* ===================================================================== *)

Module ArxivBot.

(** The bot: its registry, the file system with its snapshot, and the
    payloads sent so far. *)
Record bot : Type := mkbot {
  requests : RequestList.t;
  fs : filesystem;
  sent : list (Message.t * string)
}.

(** An event: [event.get("type")] and [event["message"]]. *)
Record event : Type := mkevent {
  event_type : option string;
  message : Zulip.message
}.

(** The dict [docopt] returns for the usage text of the bot: a flag per
    command, the tokens of [<query>...], and [<query_id>]. *)
Record args : Type := mkargs {
  cmd_set : bool;                   (* "set" *)
  arg_query : list string;          (* "<query>" *)
  cmd_list : bool;                  (* "list" *)
  cmd_all : bool;                   (* "all" *)
  cmd_rm : bool;                    (* "rm" *)
  arg_query_id : option string;     (* "<query_id>" *)
  cmd_force : bool                  (* "force" *)
}.

(** The value [handle_event] passes to [_list_command] as [scope]:
    [cmd_args["all"]] when it is true, and the empty string otherwise. *)
Inductive scope : Type :=
| ScopeFlag (b : bool)
| ScopeText (s : string).

Definition microseconds_per_hour : Z := 3600000000.
Definition microseconds_per_day : Z := 24 * microseconds_per_hour.

(** [(now - timedelta(days=1)).replace(hour=7, minute=0, second=0,
    microsecond=0)], on instants in microseconds since the epoch (UTC). *)
Definition yesterday_7am (now : Z) : Z :=
  ((now - microseconds_per_day) / microseconds_per_day) * microseconds_per_day
  + 7 * microseconds_per_hour.

(** The [for] loop of [send_updates_to_single_request] over the generator
    [search.results()], which yields [results] and then ends, or raises
    [failure]. *)
Fixpoint collect (yesterday_7am : Z) (results : list Arxiv.entry)
         (failure : option exn) (text_lines : list string)
  : result (list string) :=
  match results with
  | [] => match failure with
          | Some e => Raise e
          | None => Ok text_lines
          end
  | r :: rest =>
      if (yesterday_7am <? Arxiv.published r)%Z
      then collect yesterday_7am rest failure (text_lines ++ [Arxiv.line r])
      else Ok text_lines
  end.

Definition say (b : bot) (reply : Message.t) (text : string) : bot :=
  mkbot (requests b) (fs b) (Outbound.send (sent b) reply text).

Definition added_text (uuid : string) : string :=
  "âœ… Search topic added!" ++ String newline EmptyString
  ++ "ID: `" ++ uuid ++ "`".

Definition exists_text : string := "This search topic already exists.".
Definition no_such_text : string := "No such request ID.".
Definition denied_text : string :=
  "You don't have permission to remove this topic.".
Definition removed_text : string := "âœ… Search topic removed!".
Definition malformed_text : string :=
  "Unknown or malformed command. Use `@**arxiv** --help` for usage.".
Definition unknown_text : string :=
  "Unknown command. Use `@**arxiv** --help` for help.".

Definition not_found_text (request_id : string) : string :=
  "Request ID `" ++ request_id ++ "` not found.".

Definition help_text (help_message : string) : string :=
  "```text" ++ String newline EmptyString ++ help_message
  ++ String newline EmptyString ++ "```".

Definition list_header (show_all : bool) : string :=
  (if show_all then "ðŸ”Ž All search topics:" else "ðŸ”Ž Your search topics:")
  ++ String newline EmptyString.

(** One entry of the listing. *)
Definition list_entry (request : Request.t) : string :=
  "- [`" ++ Request.uuid request ++ "`] (owner: "
  ++ str (Request.owner_id request) ++ ")" ++ String newline EmptyString
  ++ "    query: `" ++ Request.query request ++ "`"
  ++ String newline EmptyString.

(** The [for] loop of [_list_command]: the message and the flag [found]
    after the requests [rs]. *)
Fixpoint list_loop (show_all : bool) (sender_id : Z)
         (rs : list Request.t) (msg : string) (found : bool)
  : string * bool :=
  match rs with
  | [] => (msg, found)
  | request :: rest =>
      if show_all || Z.eqb (Request.owner_id request) sender_id
      then list_loop show_all sender_id rest (msg ++ list_entry request) true
      else list_loop show_all sender_id rest msg found
  end.

Section Bot.
(** The configuration read at start, and the world the bot talks to. *)
Variable admin_id : Z.                  (* ZULIP_ADMIN_ID *)
Variable db_file : string.              (* ARXIV_DB_FILE *)
Variable email : string.                (* client_zulip.email *)
Variable doc : string.                  (* the usage text *)
Variable users_repr : list Zulip.user -> string.
(** [arxiv.Search(query=q, ...).results()]: what it yields, and the
    exception it then raises, if any. *)
Variable search : string -> list Arxiv.entry * option exn.
Variable isalnum : Z -> bool.
Variable shlex_split : string -> result (list string).
Variable docopt : string -> list string -> option args.

(** [self.requests.save_to_file(self.db_file)] *)
Definition save (b : bot) : bot :=
  match RequestList.save_to_file (requests b) db_file (fs b) with
  | Ok fs' => mkbot (requests b) fs' (sent b)
  | Raise _ => b
  end.

(** [send_updates_to_single_request], called at [now]. *)
Definition send_updates_to_single_request (now : Z) (b : bot)
           (request_id : string) : bot :=
  match RequestList.get (requests b) request_id with
  | None => b
  | Some request =>
      let (results, failure) := search (Request.query request) in
      match collect (yesterday_7am now) results failure [] with
      | Ok text_lines =>
          say b (Request.message request) (Arxiv.text_of text_lines)
      | Raise _ => b                (* logged; every class is caught *)
      end
  end.

(** [send_updates_to_all_requests]; [clock i] is the time at which the
    [i]-th request is handled. *)
Fixpoint send_updates (clock : nat -> Z) (i : nat) (b : bot)
         (ids : list string) : bot :=
  match ids with
  | [] => b
  | request_id :: rest =>
      send_updates clock (S i)
                   (send_updates_to_single_request (clock i) b request_id)
                   rest
  end.

Definition send_updates_to_all_requests (clock : nat -> Z) (b : bot) : bot :=
  send_updates clock 0 b (RequestList.ids (requests b)).

(** [_set_command]; [fresh] is the uuid drawn for the new request. *)
Definition _set_command (fresh : string) (b : bot) (query : string)
           (message : Zulip.message) (reply : Message.t) (sender_id : Z)
  : result bot :=
  id <- Arxiv.get_request_id_from_zulip_message users_repr message ;;
  let new_request := Request.mk id fresh query sender_id reply in
  let (requests', added) := RequestList.add (requests b) new_request in
  if added
  then Ok (say (save (mkbot requests' (fs b) (sent b))) reply
               (added_text (Request.uuid new_request)))
  else Ok (say b reply exists_text).

(** [_rm_command] *)
Definition _rm_command (b : bot) (request_id : string) (reply : Message.t)
           (sender_id : Z) : bot :=
  match RequestList.get (requests b) request_id with
  | None => say b reply no_such_text
  | Some request =>
      if negb (Z.eqb sender_id (Request.owner_id request)
               || Z.eqb sender_id admin_id)
      then say b reply denied_text
      else
        let (requests', _) := RequestList.remove (requests b) request_id in
        say (save (mkbot requests' (fs b) (sent b))) reply removed_text
  end.

(** [_list_command] *)
Definition _list_command (b : bot) (scope : scope) (reply : Message.t)
           (sender_id : Z) : bot :=
  let show_all := match scope with
                  | ScopeText s => String.eqb s "all"
                  | ScopeFlag _ => false
                  end in
  let (msg, found) :=
    list_loop show_all sender_id (RequestList.iter (requests b))
              (list_header show_all) false in
  let msg := if negb found then (msg ++ "None.")%string else msg in
  say b reply msg.

(** [_force_command], called at [now]. *)
Definition _force_command (now : Z) (b : bot) (request_id : string)
           (reply : Message.t) : bot :=
  match RequestList.get (requests b) request_id with
  | None => say b reply (not_found_text request_id)
  | Some _ => send_updates_to_single_request now b request_id
  end.

(** The chain of [if cmd_args.get(...)] of [handle_event]. *)
Definition dispatch (fresh : string) (now : Z) (b : bot)
           (cmd_args : Parser.parsed args) (message : Zulip.message)
           (reply : Message.t) (sender_id : Z) : result bot :=
  match cmd_args with
  | Parser.Help help_message => Ok (say b reply (help_text help_message))
  | Parser.Prompt _ => Ok (say b reply unknown_text)
  | Parser.Args a =>
      if cmd_set a then
        _set_command fresh b (join " " (arg_query a)) message reply sender_id
      else if cmd_rm a then
        match arg_query_id a with
        | Some request_id => Ok (_rm_command b request_id reply sender_id)
        | None => Ok (say b reply no_such_text)
        end
      else if cmd_list a then
        Ok (_list_command b (if cmd_all a then ScopeFlag (cmd_all a)
                             else ScopeText EmptyString)
                          reply sender_id)
      else if cmd_force a then
        match arg_query_id a with
        | Some request_id => Ok (_force_command now b request_id reply)
        | None => Ok (say b reply (not_found_text "None"))
        end
      else Ok (say b reply unknown_text)
  end.

(** The body of the [try] of [handle_event]; [None] stands for a reply
    target outside the declared types. *)
Definition handle (fresh : string) (now : Z) (b : bot) (ev : event)
  : result (option bot) :=
  let message := message ev in
  let content := Zulip.content message in
  let sender_id := Zulip.sender_id message in
  reply <- Outbound.from_zulip_message message email ;;
  if negb (match event_type ev with
           | Some t => String.eqb t "message"
           | None => false
           end)
     || String.eqb (Zulip.sender_email message) email
  then Ok (Some b)
  else
    match reply with
    | None => Ok None
    | Some reply =>
        cmd_args <-
          Parser.parse_zulip_message isalnum shlex_split docopt content doc ;;
        match cmd_args with
        | None => Ok (Some (say b reply malformed_text))
        | Some cmd_args =>
            b' <- dispatch fresh now b cmd_args message reply sender_id ;;
            Ok (Some b')
        end
    end.

(** [handle_event]: an exception is logged and the event dropped. *)
Definition handle_event (fresh : string) (now : Z) (b : bot) (ev : event)
  : option bot :=
  match handle fresh now b ev with
  | Ok b' => b'
  | Raise _ => Some b               (* every class is caught *)
  end.

End Bot.

End ArxivBot.

(* ===================================================================== *)
(** * Vocabulary of the properties *)
(* ===================================================================== *)

(** ** Registry states *)

(** The conversation keys of the stored requests, in registry order. *)
Definition conversation_keys (rl : RequestList.t) : list (list string) :=
  map Request.id (RequestList.iter rl).

(** No two stored requests share a conversation key. *)
Definition unique_conversations (rl : RequestList.t) : Prop :=
  NoDup (conversation_keys rl).

(** Every request is stored under its own uuid, and no key occurs twice. *)
Definition keyed_by_uuid (rl : RequestList.t) : Prop :=
  NoDup (RequestList.ids rl) /\
  Forall (fun kr => fst kr = Request.uuid (snd kr)) (RequestList.requests rl).

(** The registries the public operations produce: the new registry, a
    registry loaded from any file, and what [add] and [remove] leave. *)
Inductive reachable : RequestList.t -> Prop :=
| reach_new : reachable RequestList.empty
| reach_load uuid4 fs path rl :
    RequestList.load_from_file uuid4 fs path = Ok (RequestList.Typed rl) ->
    reachable rl
| reach_add rl request :
    reachable rl -> reachable (fst (RequestList.add rl request))
| reach_remove rl id :
    reachable rl -> reachable (fst (RequestList.remove rl id)).

(** The requests [load_from_file] decodes from a file, in file order
    (none when reading fails). *)
Definition typed_requests (entries : list (json * option Request.t))
  : list Request.t :=
  flat_map (fun e => match snd e with Some r => [r] | None => [] end) entries.

Definition decoded (uuid4 : nat -> string) (f : file) : list Request.t :=
  match f with
  | Snapshot raw =>
      match (items <- iterate raw ;; RequestList.load_items uuid4 0 items) with
      | Ok entries => typed_requests entries
      | Raise _ => []
      end
  | _ => []
  end.

(** A decoded entry under a string key holds a request with that uuid. *)
Definition entry_keyed (e : json * option Request.t) : Prop :=
  forall k r, e = (JStr k, Some r) -> Request.uuid r = k.

(** The same, where a file is loaded only when the requests it holds have
    pairwise distinct conversation keys. *)
Inductive reachable_deduped : RequestList.t -> Prop :=
| dedup_new : reachable_deduped RequestList.empty
| dedup_load uuid4 fs path rl :
    RequestList.load_from_file uuid4 fs path = Ok (RequestList.Typed rl) ->
    NoDup (map Request.id (decoded uuid4 (file_at fs path))) ->
    reachable_deduped rl
| dedup_add rl request :
    reachable_deduped rl ->
    reachable_deduped (fst (RequestList.add rl request))
| dedup_remove rl id :
    reachable_deduped rl ->
    reachable_deduped (fst (RequestList.remove rl id)).

(** ** Message payloads *)

(** The payload [message] with another [display_recipient]. *)
Definition with_recipient (message : Zulip.message) (r : Zulip.recipient)
  : Zulip.message :=
  Zulip.mkmessage (Zulip.type message) r (Zulip.subject message)
                  (Zulip.sender_id message) (Zulip.sender_email message)
                  (Zulip.content message).

(** A private message with its list of participants. *)
Definition private_with (message : Zulip.message) (us : list Zulip.user)
  : Prop :=
  Zulip.type message = "private" /\
  Zulip.display_recipient message = Zulip.Users us.

(** ** Text *)

(** Every character of [l] satisfies [p]. *)
Definition all_chars (p : Z -> bool) (l : list Z) : bool := forallb p l.

(** [l] is empty or starts with a character that fails [p]. *)
Definition stops (p : Z -> bool) (l : list Z) : bool :=
  match l with
  | [] => true
  | c :: _ => negb (p c)
  end.

(** The characters of [l] up to its first line feed. *)
Definition first_line (l : list Z) : list Z := fst (span not_newline l).

(** The mention of a bot, [name] being its name: an at sign, two stars,
    the name, two stars. *)
Definition mention_of (name : list Z) : list Z :=
  code_points "@**" ++ name ++ code_points "**".

(** The letters and digits of the Latin-1 supplement, to run the parser
    with. *)
Definition latin1_alnum (c : Z) : bool :=
  ((c =? 170) || (c =? 178) || (c =? 179) || (c =? 181) || (c =? 185)
   || (c =? 186) || (188 <=? c) && (c <=? 190)
   || (192 <=? c) && (c <=? 214) || (216 <=? c) && (c <=? 246)
   || (248 <=? c) && (c <=? 255))%Z.

(** ** Query results *)

(** Sorted by descending publish time. *)
Definition newest_first (results : list Arxiv.entry) : Prop :=
  Sorted (fun a b => (Arxiv.published b <= Arxiv.published a)%Z) results.

(** ** Completions *)

(** The call raised, or its first choice is missing or has no text left
    once stripped. *)
Definition no_content (c : Kita.completion) : bool :=
  match c with
  | Kita.Fails _ => true
  | Kita.Response [] _ => true
  | Kita.Response (None :: _) _ => true
  | Kita.Response (Some s :: _) _ =>
      match strip s with
      | EmptyString => true
      | _ => false
      end
  end.

(** ** A tokenizer to run the parser with *)

(** [shlex.split] in POSIX mode, after the state machine of the standard
    library's [shlex.read_token] with [whitespace_split] set and no
    comment characters: white space separates tokens, a quote opens a
    quoted part up to the same quote, a backslash escapes the next
    character (inside double quotes only a double quote or a backslash).
    It raises [ValueError] when the text ends inside quotes or just after a
    backslash. *)
Module Shlex.

Inductive lexer_state : Type :=
| Between                       (* the state written ' ' *)
| InWord                        (* the state written 'a' *)
| InQuote (q : ascii)
| Escaped (back : option ascii).  (* after a backslash; where to return *)

Definition is_whitespace (c : ascii) : bool :=
  let n := nat_of_ascii c in
  ((n =? 32) || (n =? 9) || (n =? 13) || (n =? 10))%nat.

Definition double_quote : ascii := ascii_of_nat 34.

Definition is_quote (c : ascii) : bool :=
  Ascii.eqb c "'" || Ascii.eqb c double_quote.

Definition is_escape (c : ascii) : bool := Ascii.eqb c "\".

Definition push (token : string) (c : ascii) : string :=
  (token ++ String c EmptyString)%string.

(** [tokens] holds the tokens read so far, the last one first. *)
Fixpoint run (s : string) (st : lexer_state) (token : string)
         (quoted : bool) (tokens : list string) : result (list string) :=
  match s with
  | EmptyString =>
      match st with
      | Between => Ok (rev tokens)
      | InWord => Ok (rev (token :: tokens))
      | InQuote _ | Escaped _ => Raise ValueError
      end
  | String c s' =>
      match st with
      | Between =>
          if is_whitespace c then run s' Between token quoted tokens
          else if is_escape c then run s' (Escaped None) token quoted tokens
          else if is_quote c then run s' (InQuote c) token true tokens
          else run s' InWord (push token c) quoted tokens
      | InWord =>
          if is_whitespace c then
            if negb (String.eqb token EmptyString) || quoted
            then run s' Between EmptyString false (token :: tokens)
            else run s' Between token quoted tokens
          else if is_quote c then run s' (InQuote c) token true tokens
          else if is_escape c then run s' (Escaped None) token quoted tokens
          else run s' InWord (push token c) quoted tokens
      | InQuote q =>
          if Ascii.eqb c q then run s' InWord token quoted tokens
          else if is_escape c && Ascii.eqb q double_quote
               then run s' (Escaped (Some q)) token quoted tokens
          else run s' (InQuote q) (push token c) quoted tokens
      | Escaped back =>
          match back with
          | Some q =>
              let token := if negb (is_escape c) && negb (Ascii.eqb c q)
                           then push token "\"%char else token in
              run s' (InQuote q) (push token c) quoted tokens
          | None => run s' InWord (push token c) quoted tokens
          end
      end
  end.

Definition split (s : string) : result (list string) :=
  run s Between EmptyString false [].

End Shlex.

(** ** Sample data *)

(** A request of user 42 for the stream [research], topic [ml]; then one of
    user 7 in the same conversation, with another query and uuid. *)
Definition reply_ml : Message.t :=
  Message.mk "stream" (Some "ml") (Message.Stream "research").

Definition request_42 : Request.t :=
  Request.mk ["research"; "ml"] "uuid-1" "cat:cs.LG AND all:GAN" 42 reply_ml.

Definition request_7 : Request.t :=
  Request.mk ["research"; "ml"] "uuid-2" "all:diffusion" 7 reply_ml.

(** A snapshot file that holds both. *)
Definition db_file : string := "data/arxiv.db".

Definition fs_two_in_one_conversation : filesystem :=
  mkfs (fun _ => Snapshot (JArr [Request.to_dict request_42;
                                 Request.to_dict request_7]))
       (fun _ => Written).

Definition uuid4_fixed : nat -> string := fun _ => "uuid-0".

(** Files that do not load: no file, text that is not JSON, an object
    where the list of records should be, and a record without its
    conversation key. *)
Definition fs_of (f : file) : filesystem :=
  mkfs (fun _ => f) (fun _ => Written).

Definition not_a_list : json := JObj [("requests", JArr [])].

Definition record_without_id : json :=
  JArr [JObj [("uuid", JStr "uuid-1"); ("query", JStr "all:GAN")]].

(** A private message between users 9 and 10, and the same payload under
    a type that is neither private nor stream. *)
Definition user_9 : Zulip.user := Zulip.mkuser 9 "nine@example.org".
Definition user_10 : Zulip.user := Zulip.mkuser 10 "ten@example.org".

Definition private_9_10 : Zulip.message :=
  Zulip.mkmessage "private" (Zulip.Users [user_9; user_10]) EmptyString
                  9 "nine@example.org" "@**arxiv** list".

Definition huddle_9_10 : Zulip.message :=
  Zulip.mkmessage "huddle" (Zulip.Users [user_9; user_10]) EmptyString
                  9 "nine@example.org" "@**kita** hello".

Definition no_repr : list Zulip.user -> string := fun _ => "[...]".

(** Three results, newest first; the cutoff falls between the second and
    the third. *)
Definition results_newest_first : list Arxiv.entry :=
  [Arxiv.mkentry "Paper C" "http://arxiv.org/abs/3" 300;
   Arxiv.mkentry "Paper B" "http://arxiv.org/abs/2" 200;
   Arxiv.mkentry "Paper A" "http://arxiv.org/abs/1" 100].

(** A fresh Kita, and a completion call whose only choice has white space
    for text. *)
Definition kita_start : Kita.state :=
  Kita.mkstate (fun _ => []) [] (fun _ => None) true [].

Definition create_blank : list Kita.turn -> Kita.completion :=
  fun _ => Kita.Response [Some "  "] (Some 12%Z).

(** A Kita whose conversations all hold ten turns, the capacity of their
    memory. *)
Definition ten_turns : list Kita.turn :=
  map (fun n => Kita.mkturn "user" (str n)) [1; 2; 3; 4; 5; 6; 7; 8; 9; 10]%Z.

Definition kita_full : Kita.state :=
  Kita.mkstate (fun _ => ten_turns) [] (fun _ => None) true [].

Definition conv_research_ml : option Kita.conv_key :=
  Some (Kita.StreamKey (Zulip.StreamName "research") "ml").

(** ** Vocabulary of the further properties *)

(** A file from which no list of records is read: there is no file, it
    cannot be read, its text is not JSON, or its value is not an array of
    objects. *)
Definition is_object (j : json) : bool :=
  match j with
  | JObj _ => true
  | _ => false
  end.

Definition no_record_list (f : file) : bool :=
  match f with
  | NoFile | Unreadable | Malformed => true
  | Snapshot (JArr l) => negb (forallb is_object l)
  | Snapshot _ => true
  | Inaccessible => false
  end.

(** The fields [load_from_file] reads from every record. *)
Definition required_fields : list string :=
  ["uuid"; "id"; "query"; "owner_id"; "message"].

(** The registry and the snapshot file agree. *)
Definition in_sync (db_file : string) (b : ArxivBot.bot) : Prop :=
  file_at (ArxivBot.fs b) db_file
  = Snapshot (RequestList.dump (ArxivBot.requests b)).

(** The requests [_list_command] shows. *)
Definition listed (show_all : bool) (sender_id : Z) (request : Request.t)
  : bool :=
  show_all || Z.eqb (Request.owner_id request) sender_id.

(** What a command leaves: the registry and the files as they were, or
    the registry after one [add] or one [remove], saved. *)
Inductive effect (db_file : string) (b b' : ArxivBot.bot) : Prop :=
| Unchanged :
    ArxivBot.requests b' = ArxivBot.requests b ->
    ArxivBot.fs b' = ArxivBot.fs b ->
    effect db_file b b'
| Added (request : Request.t) :
    ArxivBot.requests b'
    = fst (RequestList.add (ArxivBot.requests b) request) ->
    RequestList.save_to_file (ArxivBot.requests b') db_file (ArxivBot.fs b)
    = Ok (ArxivBot.fs b') ->
    effect db_file b b'
| Removed (request_id : string) :
    ArxivBot.requests b'
    = fst (RequestList.remove (ArxivBot.requests b) request_id) ->
    RequestList.save_to_file (ArxivBot.requests b') db_file (ArxivBot.fs b)
    = Ok (ArxivBot.fs b') ->
    effect db_file b b'.

(** The search raises inside the loop of an update: every result it
    yields is after the cutoff, and then it raises. *)
Definition raises_in_loop (cutoff : Z) (s : list Arxiv.entry * option exn)
  : bool :=
  match snd s with
  | Some _ => forallb (fun r => (cutoff <? Arxiv.published r)%Z) (fst s)
  | None => false
  end.

(** What an update of [request] at [now] sends: nothing when its search
    raises inside the loop, and else one message to the reply target of
    the request, with the lines the scan collects. *)
Definition update_of (search : string -> list Arxiv.entry * option exn)
           (now : Z) (request : Request.t) : list (Message.t * string) :=
  let s := search (Request.query request) in
  if raises_in_loop (ArxivBot.yesterday_7am now) s then []
  else [(Request.message request,
         Arxiv.text_of (Arxiv.scan (ArxivBot.yesterday_7am now) (fst s) []))].

(** The same for the requests [rs] one after the other, the first at
    [clock i]. *)
Fixpoint updates_of (search : string -> list Arxiv.entry * option exn)
         (clock : nat -> Z) (i : nat) (rs : list Request.t)
  : list (Message.t * string) :=
  match rs with
  | [] => []
  | r :: rest =>
      update_of search (clock i) r ++ updates_of search clock (S i) rest
  end.

(** Whether [_list_command] shows every request under [scope]. *)
Definition shows_all (scope : ArxivBot.scope) : bool :=
  match scope with
  | ArxivBot.ScopeText s => String.eqb s "all"
  | ArxivBot.ScopeFlag _ => false
  end.

(** The entries of the requests [rs], one after the other. *)
Definition entries_text (rs : list Request.t) : string :=
  fold_right String.append EmptyString (map ArxivBot.list_entry rs).

(** The count [token_usage[u]] reads. *)
Definition usage_at (u : Z) (d : Kita.usage) : Z :=
  match Kita.usage_get u d with
  | Some n => n
  | None => 0%Z
  end.

(** The last [n] items of [l]. *)
Definition newest (A : Type) (n : nat) (l : list A) : list A :=
  skipn (List.length l - n) l.

(** Every conversation holds at most [maxlen] turns. *)
Definition memory_bounded (st : Kita.state) : Prop :=
  forall conv_id,
    (List.length (Kita.conversation_memory st conv_id) <= Kita.maxlen)%nat.

(** ** Further sample data *)

Definition registry_42 : RequestList.t :=
  RequestList.mk [("uuid-1", request_42)].

Definition request_9 : Request.t :=
  Request.mk ["10"; "9"] "uuid-3" "all:GAN" 9
             (Message.mk "private" None
                         (Message.Addresses ["ten@example.org";
                                             "nine@example.org"])).

(** A record as [to_dict] writes it, without its uuid. *)
Definition record_without_uuid : list (string * json) :=
  [("id", JArr [JStr "research"; JStr "ml"]);
   ("query", JStr "all:GAN");
   ("owner_id", JInt 42);
   ("message", Message.to_dict reply_ml)].

Definition stream_ml : Zulip.message :=
  Zulip.mkmessage "stream" (Zulip.StreamName "research") "ml"
                  7 "seven@example.org" "@**arxiv** list all".

Definition bot_42 : ArxivBot.bot :=
  ArxivBot.mkbot registry_42 (fs_of NoFile) [].

Definition bot_42_and_9 : ArxivBot.bot :=
  ArxivBot.mkbot (RequestList.mk [("uuid-1", request_42);
                                  ("uuid-3", request_9)])
                 (fs_of NoFile) [].

Definition search_fixed : string -> list Arxiv.entry * option exn :=
  fun _ => (results_newest_first, None).

(** A search that fails for the query of user 42 and answers the others. *)
Definition search_broken_42 : string -> list Arxiv.entry * option exn :=
  fun q => if String.eqb q "cat:cs.LG AND all:GAN" then ([], Some OSError)
           else (results_newest_first, None).

Definition args_list_all : ArxivBot.args :=
  ArxivBot.mkargs false [] true true false None false.

(** The arXiv bot at work: its address, a docopt that reports [list all],
    one that reports [set] with the tokens after it, and two events. *)
Definition bot_email : string := "arxiv-bot@example.org".

Definition docopt_list_all : string -> list string -> option ArxivBot.args :=
  fun _ _ => Some args_list_all.

Definition docopt_set : string -> list string -> option ArxivBot.args :=
  fun _ tokens =>
    Some (ArxivBot.mkargs true (tl tokens) false false false None false).

Definition event_list_all : ArxivBot.event :=
  ArxivBot.mkevent (Some "message") stream_ml.

Definition event_set_private : ArxivBot.event :=
  ArxivBot.mkevent
    (Some "message")
    (Zulip.mkmessage "private" (Zulip.Users [user_9; user_10]) EmptyString
                     9 "nine@example.org" "@**arxiv** set all:GAN").

Definition event_from_the_bot : ArxivBot.event :=
  ArxivBot.mkevent
    (Some "message")
    (Zulip.mkmessage "stream" (Zulip.StreamName "research") "ml"
                     1 bot_email "No new results found.").

Definition handle_sample (docopt : string -> list string -> option ArxivBot.args)
           (b : ArxivBot.bot) (ev : ArxivBot.event) : option ArxivBot.bot :=
  ArxivBot.handle_event 1 db_file bot_email "Usage: ..." no_repr search_fixed
                        latin1_alnum Shlex.split docopt "uuid-5" 350 b ev.

Definition bot_after_set : ArxivBot.bot :=
  match handle_sample docopt_set bot_42 event_set_private with
  | Some b' => b'
  | None => bot_42
  end.

Definition create_answers : list Kita.turn -> Kita.completion :=
  fun _ => Kita.Response [Some " Hello! "] (Some 12%Z).

(** A Kita in which user 42 has used 999990 tokens, and a fresh one whose
    database takes no write. *)
Definition kita_near_quota : Kita.state :=
  Kita.mkstate (fun _ => []) [(42, 999990)]%Z
               (fun u => if Z.eqb u 42 then Some 999990%Z else None) true [].

Definition kita_offline : Kita.state :=
  Kita.mkstate (fun _ => []) [] (fun _ => None) false [].

Definition kita_after_answer : Kita.state :=
  match Kita.handle_message_to_openai create_answers kita_start 42
          "@**kita** hello" conv_research_ml reply_ml with
  | Ok st' => st'
  | Raise _ => kita_start
  end.

(** ** Proof tools *)

(** Case analysis on the scrutinee of a [match] in [H], dropping the cases
    that contradict [H]. *)
Ltac break_match_in H :=
  match type of H with
  | context [match ?x with _ => _ end] => destruct x eqn:?; try discriminate
  end.

(* ===================================================================== *)
(** * Properties *)
(* ===================================================================== *)

(** ** Dictionaries *)

Section DictFacts.
Variable V : Type.
Implicit Types (d : dict V) (k : string) (v : V).

Lemma dict_get_set_eq k v d : dict_get k (dict_set k v d) = Some v.
Proof.
  induction d as [|[k' v'] d IH]; simpl.
  - now rewrite String.eqb_refl.
  - destruct (String.eqb k k') eqn:E; simpl; rewrite E; auto.
Qed.

Lemma dict_get_set_ne k k' v d :
  k <> k' -> dict_get k' (dict_set k v d) = dict_get k' d.
Proof.
  intros Hne. induction d as [|[k1 v1] d IH]; simpl.
  - destruct (String.eqb_spec k' k); congruence.
  - destruct (String.eqb_spec k k1) as [->|]; simpl.
    + destruct (String.eqb_spec k' k1); congruence.
    + now rewrite IH.
Qed.

Lemma dict_get_In k v d : dict_get k d = Some v -> In (k, v) d.
Proof.
  induction d as [|[k' v'] d IH]; simpl; [discriminate|].
  destruct (String.eqb_spec k k') as [->|]; intros H.
  - left. congruence.
  - right. auto.
Qed.

Lemma dict_get_None k d : dict_get k d = None <-> ~ In k (dict_keys d).
Proof.
  induction d as [|[k' v'] d IH]; simpl; [tauto|].
  destruct (String.eqb_spec k k') as [->|]; split; intros H.
  - discriminate.
  - exfalso. apply H. now left.
  - intros [E|E]; [congruence|]. now apply IH.
  - apply IH. tauto.
Qed.

(** An assignment keeps the keys, or adds the new one at the end. *)
Lemma dict_keys_set k v d :
  dict_keys (dict_set k v d) =
    if dict_mem k d then dict_keys d else dict_keys d ++ [k].
Proof.
  unfold dict_mem. induction d as [|[k' v'] d IH]; simpl; [reflexivity|].
  destruct (String.eqb k k') eqn:E; simpl; [reflexivity|].
  rewrite IH. now destruct (dict_get k d).
Qed.

Lemma dict_keys_set_NoDup k v d :
  NoDup (dict_keys d) -> NoDup (dict_keys (dict_set k v d)).
Proof.
  intros H. rewrite dict_keys_set. unfold dict_mem.
  destruct (dict_get k d) eqn:E; [assumption|].
  apply dict_get_None in E.
  apply NoDup_rev in H. rewrite <- (rev_involutive (dict_keys d ++ [k])).
  apply NoDup_rev. rewrite rev_app_distr. simpl. constructor; [|assumption].
  now rewrite <- in_rev.
Qed.

Lemma dict_set_In k v d k' v' :
  In (k', v') (dict_set k v d) -> (k', v') = (k, v) \/ In (k', v') d.
Proof.
  induction d as [|[k1 v1] d IH]; simpl.
  - intros [E|[]]. now left.
  - destruct (String.eqb_spec k k1) as [->|]; simpl.
    + intros [E|H]; [now left | right; now right].
    + intros [E|H]; [right; now left|].
      destruct (IH H) as [E|H']; [now left | right; now right].
Qed.

Lemma dict_del_incl k d : incl (dict_del k d) d.
Proof.
  induction d as [|[k1 v1] d IH]; simpl; [apply incl_refl|].
  destruct (String.eqb k k1).
  - apply incl_tl, incl_refl.
  - apply incl_cons; [now left | now apply incl_tl].
Qed.

(** Deleting keeps the other items in their order. *)
Lemma dict_del_map_NoDup (B : Type) (f : string * V -> B) k d :
  NoDup (map f d) -> NoDup (map f (dict_del k d)).
Proof.
  induction d as [|[k1 v1] d IH]; simpl; [auto|].
  intros H. inversion H as [|? ? Hn Hd]; subst.
  destruct (String.eqb k k1); [assumption|].
  simpl. constructor; [|auto].
  intros Hin. apply Hn. apply in_map_iff in Hin as [x [Hx Hin]].
  apply in_map_iff. exists x. split; [assumption|].
  now apply (dict_del_incl k d).
Qed.

(** An assignment under a key whose image by [f] is new keeps the images
    of the values pairwise distinct. *)
Lemma dict_set_values_NoDup (B : Type) (f : V -> B) k v d :
  NoDup (map f (dict_values d)) ->
  ~ In (f v) (map f (dict_values d)) ->
  NoDup (map f (dict_values (dict_set k v d))).
Proof.
  unfold dict_values.
  induction d as [|[k1 v1] d IH]; simpl; intros Hd Hn.
  - constructor; [tauto | constructor].
  - inversion Hd as [|? ? Hn1 Hd1]; subst.
    destruct (String.eqb k k1); simpl.
    + constructor; [tauto | assumption].
    + constructor; [|apply IH; tauto].
      intros Hin. apply in_map_iff in Hin as [x [Hx Hin]].
      apply in_map_iff in Hin as [[k2 v2] [Hx2 Hin]]. simpl in Hx2. subst x.
      apply dict_set_In in Hin as [E|Hin].
      * inversion E; subst. apply Hn. left. congruence.
      * apply Hn1. rewrite <- Hx. apply in_map_iff. exists v2. split; auto.
        apply in_map_iff. now exists (k2, v2).
Qed.
End DictFacts.

(** ** The registry: [add] *)

Lemma Request_eqb_eq (r r' : Request.t) :
  Request.eqb r r' = true <-> Request.id r = Request.id r'.
Proof.
  unfold Request.eqb.
  destruct (list_eq_dec string_dec (Request.id r) (Request.id r'));
    split; congruence.
Qed.

Lemma any_eq_true (request : Request.t) (d : dict Request.t) :
  RequestList.any_eq request d = true <->
  exists k r, In (k, r) d /\ Request.id r = Request.id request.
Proof.
  unfold RequestList.any_eq, dict_values. rewrite existsb_exists. split.
  - intros [r [Hin Heq]]. apply in_map_iff in Hin as [[k r'] [E Hin]].
    simpl in E. subst r'. exists k, r. split; [assumption|].
    now apply Request_eqb_eq.
  - intros [k [r [Hin Heq]]]. exists r. split.
    + apply in_map_iff. now exists (k, r).
    + now apply Request_eqb_eq.
Qed.

Lemma any_eq_false (request : Request.t) (d : dict Request.t) :
  RequestList.any_eq request d = false <->
  forall k r, In (k, r) d -> Request.id r <> Request.id request.
Proof.
  split.
  - intros H k r Hin Heq.
    assert (RequestList.any_eq request d = true) by (apply any_eq_true; eauto).
    congruence.
  - intros H. destruct (RequestList.any_eq request d) eqn:E; [|reflexivity].
    apply any_eq_true in E as [k [r [Hin Heq]]]. now elim (H k r).
Qed.

(** C1.  [add] returns [False] and leaves the registry as it is when a
    stored request has the conversation key of the new one, whatever their
    queries, owners and uuids; otherwise it stores the new request under
    its uuid, where [get] then finds it, and returns [True]. *)
Theorem add_dedups_on_conversation_key :
  forall (rl : RequestList.t) (request : Request.t),
    ((exists k r, In (k, r) (RequestList.requests rl) /\
                  Request.id r = Request.id request) ->
     RequestList.add rl request = (rl, false))
    /\
    ((forall k r, In (k, r) (RequestList.requests rl) ->
                  Request.id r <> Request.id request) ->
     RequestList.add rl request =
       (RequestList.mk (dict_set (Request.uuid request) request
                                 (RequestList.requests rl)), true)
     /\ RequestList.get (fst (RequestList.add rl request))
                        (Request.uuid request) = Some request).
Proof.
  intros rl request. unfold RequestList.add. split; intros H.
  - apply any_eq_true in H. now rewrite H.
  - apply any_eq_false in H. rewrite H. split; [reflexivity|].
    simpl. unfold RequestList.get. simpl. apply dict_get_set_eq.
Qed.

Lemma add_dedups_on_conversation_key_witness :
  RequestList.add (RequestList.mk [("uuid-1", request_42)]) request_7
    = (RequestList.mk [("uuid-1", request_42)], false)
  /\ RequestList.add RequestList.empty request_42
    = (RequestList.mk [("uuid-1", request_42)], true).
Proof.
  split.
  - apply (proj1 (add_dedups_on_conversation_key
                    (RequestList.mk [("uuid-1", request_42)]) request_7)).
    exists "uuid-1", request_42. split; [left; reflexivity | reflexivity].
  - apply (proj2 (add_dedups_on_conversation_key
                    RequestList.empty request_42)).
    intros k r [].
Defined.

(** ** The registry: what every operation keeps *)

Lemma conversation_keys_map (d : dict Request.t) :
  map Request.id (dict_values d) = map (fun kr => Request.id (snd kr)) d.
Proof. unfold dict_values. now rewrite map_map. Qed.

Lemma add_unique (rl : RequestList.t) (request : Request.t) :
  unique_conversations rl ->
  unique_conversations (fst (RequestList.add rl request)).
Proof.
  unfold unique_conversations, conversation_keys, RequestList.iter,
    RequestList.add.
  intros H. destruct (RequestList.any_eq request _) eqn:E; simpl; [assumption|].
  apply dict_set_values_NoDup; [assumption|].
  intros Hin. apply in_map_iff in Hin as [r [Heq Hin]].
  unfold dict_values in Hin. apply in_map_iff in Hin as [[k r'] [E' Hin]].
  simpl in E'. subst r'.
  exact (proj1 (any_eq_false _ _) E k r Hin Heq).
Qed.

Lemma remove_unique (rl : RequestList.t) (id : string) :
  unique_conversations rl ->
  unique_conversations (fst (RequestList.remove rl id)).
Proof.
  unfold unique_conversations, conversation_keys, RequestList.iter,
    RequestList.remove.
  intros H. destruct (negb _); simpl; [assumption|].
  rewrite conversation_keys_map in *. now apply dict_del_map_NoDup.
Qed.

(** The dictionary built from the decoded entries holds no conversation
    key twice when the entries do not. *)
Lemma build_unique (entries : list (json * option Request.t)) :
  forall acc d,
    RequestList.build entries acc = Some d ->
    NoDup (map Request.id (dict_values acc)
           ++ map Request.id (typed_requests entries)) ->
    NoDup (map Request.id (dict_values d)).
Proof.
  induction entries as [|[k r] es IH]; simpl; intros acc d Hb Hn.
  - rewrite app_nil_r in Hn. congruence.
  - destruct k; try discriminate. destruct r as [r|]; [|discriminate].
    simpl in Hn. apply (IH _ _ Hb).
    pose proof (NoDup_remove_1 _ _ _ Hn) as Hrest.
    pose proof (NoDup_remove_2 _ _ _ Hn) as Hnew.
    apply NoDup_app.
    + apply dict_set_values_NoDup.
      * now apply NoDup_app_remove_r in Hrest.
      * intros Hin. apply Hnew. apply in_or_app. now left.
    + now apply NoDup_app_remove_l in Hrest.
    + intros x Hin Hin'.
      apply in_map_iff in Hin as [r' [Hx Hin]]. subst x.
      unfold dict_values in Hin. apply in_map_iff in Hin as [[k' r''] [E Hin]].
      simpl in E. subst r''.
      apply dict_set_In in Hin as [E|Hin].
      * inversion E; subst. apply Hnew. apply in_or_app. now right.
      * assert (Hacc : In (Request.id r') (map Request.id (dict_values acc))).
        { apply in_map_iff. exists r'. split; [reflexivity|].
          unfold dict_values. apply in_map_iff. now exists (k', r'). }
        clear - Hrest Hacc Hin'.
        induction (map Request.id (dict_values acc)) as [|a l IHl];
          [contradiction|].
        simpl in Hrest. inversion Hrest as [|? ? Ha Hl]; subst.
        destruct Hacc as [->|Hacc]; [|auto].
        apply Ha. apply in_or_app. now right.
Qed.

(** [load_from_file] raises where the status of the path cannot be read;
    elsewhere it returns the empty registry, or what the items of a
    snapshot decode to. *)
Lemma load_from_file_cases uuid4 fs path :
  (file_at fs path = Inaccessible /\
   RequestList.load_from_file uuid4 fs path = Raise OSError)
  \/ RequestList.load_from_file uuid4 fs path
     = Ok (RequestList.Typed RequestList.empty)
  \/ exists raw items entries,
       file_at fs path = Snapshot raw /\
       iterate raw = Ok items /\
       RequestList.load_items uuid4 0 items = Ok entries /\
       RequestList.load_from_file uuid4 fs path
         = Ok (RequestList.of_entries entries).
Proof.
  unfold RequestList.load_from_file.
  destruct (file_at fs path) as [| | |raw|] eqn:Hf; simpl; auto.
  destruct (iterate raw) as [items|e] eqn:Hi; simpl.
  - destruct (RequestList.load_items uuid4 0 items) as [entries|e] eqn:Hl;
      simpl.
    + right. right. exists raw, items, entries. auto.
    + right. left. now destruct e.
  - right. left. now destruct e.
Qed.

Lemma load_unique uuid4 fs path (rl : RequestList.t) :
  RequestList.load_from_file uuid4 fs path = Ok (RequestList.Typed rl) ->
  NoDup (map Request.id (decoded uuid4 (file_at fs path))) ->
  unique_conversations rl.
Proof.
  intros H Hn.
  destruct (load_from_file_cases uuid4 fs path)
    as [[_ E]|[E|[raw [items [entries [Hf [Hi [Hl E]]]]]]]]; rewrite E in H.
  - discriminate.
  - inversion H; subst. constructor.
  - unfold decoded in Hn. rewrite Hf, Hi in Hn. simpl in Hn. rewrite Hl in Hn.
    unfold RequestList.of_entries in H.
    destruct (RequestList.build entries []) as [d|] eqn:Hb; [|discriminate].
    inversion H; subst.
    unfold unique_conversations, conversation_keys, RequestList.iter. simpl.
    now apply (build_unique entries [] Hb).
Qed.

(** C2, as the code has it.  A registry reached from the new registry, or
    from a loaded file whose requests have pairwise distinct conversation
    keys, by [add] and [remove], holds no two requests with the same
    conversation key. *)
Theorem reachable_deduped_unique :
  forall rl : RequestList.t, reachable_deduped rl -> unique_conversations rl.
Proof.
  induction 1.
  - constructor.
  - eapply load_unique; eassumption.
  - now apply add_unique.
  - now apply remove_unique.
Qed.

Lemma reachable_deduped_unique_witness :
  unique_conversations
    (fst (RequestList.add (fst (RequestList.add RequestList.empty request_42))
                          request_7)).
Proof.
  apply reachable_deduped_unique.
  apply dedup_add, dedup_add, dedup_new.
Defined.

(** C2, as stated, fails: [load_from_file] stores what the file holds.  A
    file with two requests of one conversation under two uuids loads into
    a registry that holds both. *)
Lemma load_keeps_duplicate_conversations :
  reachable (RequestList.mk [("uuid-1", request_42); ("uuid-2", request_7)])
  /\ ~ unique_conversations
       (RequestList.mk [("uuid-1", request_42); ("uuid-2", request_7)]).
Proof.
  split.
  - apply (reach_load uuid4_fixed fs_two_in_one_conversation db_file).
    reflexivity.
  - intros H. inversion H as [|? ? Hn _]; subst. apply Hn. now left.
Qed.

(** ** The registry: keys are uuids *)

Lemma typed_uuid u i q o m (r : Request.t) :
  Request.typed u i q o m = Some r -> u = JStr (Request.uuid r).
Proof.
  unfold Request.typed. intros H.
  destruct u; simpl in H; try discriminate.
  repeat break_match_in H. inversion H; subst. reflexivity.
Qed.

Lemma bind_Ok (A B : Type) (m : result A) (k : A -> result B) (b : B) :
  bind m k = Ok b -> exists a, m = Ok a /\ k a = Ok b.
Proof. destruct m as [a|e]; simpl; [eauto | discriminate]. Qed.

(** A decoded entry with a string key holds a request with that uuid. *)
Lemma load_item_uuid fresh data k (r : Request.t) :
  RequestList.load_item fresh data = Ok (JStr k, Some r) ->
  Request.uuid r = k.
Proof.
  unfold RequestList.load_item, Request.from_dict. intros H.
  apply bind_Ok in H as [u [Hu H]].
  apply bind_Ok in H as [r' [Hr H]].
  destruct (hashable u); [|discriminate]. inversion H; subst.
  apply bind_Ok in Hr as [u' [Hu' Hr]].
  assert (u' = JStr k) as ->.
  { unfold subscript, get_default in *. destruct data; try discriminate.
    destruct (dict_get "uuid" o); [congruence | discriminate]. }
  repeat (apply bind_Ok in Hr as [? [? Hr]]). inversion Hr as [Ht].
  apply typed_uuid in Ht. now inversion Ht.
Qed.

Lemma load_items_keyed uuid4 (items : list json) :
  forall n entries,
    RequestList.load_items uuid4 n items = Ok entries ->
    Forall entry_keyed entries.
Proof.
  induction items as [|data items IH]; simpl; intros n entries H.
  - inversion H. constructor.
  - destruct (RequestList.load_item (uuid4 n) data) as [e|] eqn:He;
      simpl in H; [|discriminate].
    destruct (RequestList.load_items uuid4 (S n) items) as [es|] eqn:Hes;
      simpl in H; [|discriminate].
    inversion H; subst. constructor; [|eauto].
    intros k r ->. now apply load_item_uuid in He.
Qed.

Lemma keyed_set (d : dict Request.t) (r : Request.t) :
  keyed_by_uuid (RequestList.mk d) ->
  keyed_by_uuid (RequestList.mk (dict_set (Request.uuid r) r d)).
Proof.
  unfold keyed_by_uuid, RequestList.ids. simpl. intros [Hn Hk]. split.
  - now apply dict_keys_set_NoDup.
  - apply Forall_forall. intros [k' r'] Hin.
    apply dict_set_In in Hin as [E|Hin].
    + now inversion E.
    + exact (proj1 (Forall_forall _ _) Hk _ Hin).
Qed.

Lemma build_keyed (entries : list (json * option Request.t)) :
  forall acc d,
    Forall entry_keyed entries ->
    RequestList.build entries acc = Some d ->
    keyed_by_uuid (RequestList.mk acc) ->
    keyed_by_uuid (RequestList.mk d).
Proof.
  induction entries as [|[k r] es IH]; simpl; intros acc d He Hb Hacc.
  - congruence.
  - destruct k; try discriminate. destruct r as [r|]; [|discriminate].
    inversion He as [|? ? Hk Hes]; subst.
    apply (IH _ _ Hes Hb).
    rewrite <- (Hk s r eq_refl). now apply keyed_set.
Qed.

Lemma keyed_empty : keyed_by_uuid RequestList.empty.
Proof. split; constructor. Qed.

Lemma reachable_keyed (rl : RequestList.t) :
  reachable rl -> keyed_by_uuid rl.
Proof.
  induction 1 as [|uuid4 fs path rl H|rl request _ IH|rl id _ IH].
  - apply keyed_empty.
  - destruct (load_from_file_cases uuid4 fs path)
      as [[_ E]|[E|[raw [items [entries [Hf [Hi [Hl E]]]]]]]]; rewrite E in H.
    + discriminate.
    + inversion H; subst. apply keyed_empty.
    + unfold RequestList.of_entries in H.
      destruct (RequestList.build entries []) as [d|] eqn:Hb; [|discriminate].
      inversion H; subst.
      eapply build_keyed;
        [eapply load_items_keyed; exact Hl | exact Hb | exact keyed_empty].
  - unfold RequestList.add. destruct (RequestList.any_eq _ _); simpl; auto.
    destruct rl as [d]. now apply keyed_set.
  - unfold RequestList.remove. destruct (negb _); simpl; auto.
    destruct IH as [Hn Hk]. unfold keyed_by_uuid, RequestList.ids in *.
    simpl in *. split.
    + unfold dict_keys in *. now apply dict_del_map_NoDup.
    + apply Forall_forall. intros kr Hin.
      apply (proj1 (Forall_forall _ _) Hk).
      now apply (dict_del_incl id (RequestList.requests rl)).
Qed.

(** ** The registry: writing the snapshot and reading it back *)

Lemma as_str_list_map (l : list string) :
  Message.as_str_list (map JStr l) = Some l.
Proof. induction l as [|s l IH]; simpl; [reflexivity | now rewrite IH]. Qed.

Lemma Message_from_to_dict (m : Message.t) :
  Message.from_dict (Message.to_dict m) = Ok (Some m).
Proof.
  destruct m as [ty sub tgt]. unfold Message.from_dict, Message.to_dict.
  simpl. unfold Message.typed. simpl.
  destruct sub as [s|]; destruct tgt as [emails|name]; simpl;
    try rewrite as_str_list_map; reflexivity.
Qed.

Lemma load_item_to_dict fresh (r : Request.t) :
  RequestList.load_item fresh (Request.to_dict r)
    = Ok (JStr (Request.uuid r), Some r).
Proof.
  destruct r as [i u q o m].
  unfold RequestList.load_item, Request.from_dict, Request.to_dict.
  pose proof (Message_from_to_dict m) as Hm.
  simpl Request.message. remember (Message.to_dict m) as mj.
  simpl. rewrite Hm. simpl.
  unfold Request.typed. simpl. now rewrite as_str_list_map.
Qed.

Lemma load_items_dump uuid4 (l : list Request.t) :
  forall n,
    RequestList.load_items uuid4 n (map Request.to_dict l)
      = Ok (map (fun r => (JStr (Request.uuid r), Some r)) l).
Proof.
  induction l as [|r l IH]; intros n; [reflexivity|].
  cbn [map RequestList.load_items].
  rewrite load_item_to_dict. cbn [bind]. now rewrite IH.
Qed.

Lemma dict_set_fresh (V : Type) (k : string) (v : V) (d : dict V) :
  ~ In k (dict_keys d) -> dict_set k v d = d ++ [(k, v)].
Proof.
  induction d as [|[k' v'] d IH]; simpl; intros H; [reflexivity|].
  destruct (String.eqb_spec k k') as [->|]; [tauto|].
  rewrite IH; tauto.
Qed.

(** Building the dictionary again from requests stored under their uuids
    gives the dictionary they came from, in the same order. *)
Lemma build_dump (d : dict Request.t) :
  forall acc,
    NoDup (dict_keys acc ++ dict_keys d) ->
    Forall (fun kr => fst kr = Request.uuid (snd kr)) d ->
    RequestList.build
      (map (fun r => (JStr (Request.uuid r), Some r)) (dict_values d)) acc
    = Some (acc ++ d).
Proof.
  induction d as [|[k r] d IH]; simpl; intros acc Hn Hk.
  - now rewrite app_nil_r.
  - inversion Hk as [|? ? Hkr Hd]; subst. simpl in Hkr. subst k.
    rewrite dict_set_fresh.
    + replace (acc ++ (Request.uuid r, r) :: d)
        with ((acc ++ [(Request.uuid r, r)]) ++ d)
        by (now rewrite <- app_assoc).
      apply IH; [|assumption].
      unfold dict_keys in *. rewrite map_app. simpl.
      now rewrite <- app_assoc.
    + apply NoDup_remove_2 in Hn. intros Hin. apply Hn.
      apply in_or_app. now left.
Qed.

(** Loading the file that holds the dump of a registry keyed by uuid
    gives that registry. *)
Lemma load_dump uuid4 (fs : filesystem) (path : string) (rl : RequestList.t) :
  keyed_by_uuid rl ->
  RequestList.load_from_file
    uuid4 (write_file fs path (RequestList.dump rl)) path
  = Ok (RequestList.Typed rl).
Proof.
  intros [Hn Hk].
  unfold RequestList.load_from_file. simpl. rewrite String.eqb_refl. simpl.
  rewrite load_items_dump. simpl.
  unfold RequestList.of_entries. rewrite build_dump; try assumption.
  now destruct rl.
Qed.

Lemma save_to_file_writable (rl : RequestList.t) (path : string)
      (fs : filesystem) :
  can_write fs path = true ->
  RequestList.save_to_file rl path fs
  = Ok (write_file fs path (RequestList.dump rl)).
Proof.
  unfold can_write, RequestList.save_to_file. intros Hw.
  destruct (on_write fs path); [discriminate | discriminate | reflexivity].
Qed.

(** The requests decoded from a dump are the requests dumped. *)
Lemma decoded_dump uuid4 (rl : RequestList.t) :
  decoded uuid4 (Snapshot (RequestList.dump rl)) = RequestList.iter rl.
Proof.
  unfold decoded, RequestList.dump, RequestList.iter. simpl.
  rewrite load_items_dump. unfold typed_requests.
  induction (dict_values (RequestList.requests rl)) as [|r l IH];
    simpl; [reflexivity | now rewrite IH].
Qed.

Lemma reachable_deduped_reachable (rl : RequestList.t) :
  reachable_deduped rl -> reachable rl.
Proof.
  induction 1; [apply reach_new | eapply reach_load; eassumption
               | now apply reach_add | now apply reach_remove].
Qed.

(** A registry that loads the file it saved is where it was: loading
    one's own snapshot stays among the deduplicated registries. *)
Lemma load_own_snapshot uuid4 (fs fs' : filesystem) (path : string)
      (rl0 rl : RequestList.t) :
  reachable_deduped rl0 ->
  can_write fs path = true ->
  RequestList.save_to_file rl0 path fs = Ok fs' ->
  RequestList.load_from_file uuid4 fs' path = Ok (RequestList.Typed rl) ->
  reachable_deduped rl.
Proof.
  intros H0 Hw Hs Hl. rewrite (save_to_file_writable rl0 path fs Hw) in Hs.
  inversion Hs; subst fs'.
  rewrite load_dump in Hl
    by now apply reachable_keyed, reachable_deduped_reachable.
  now inversion Hl; subst.
Qed.

(** C6.  Saving a registry the operations can produce to a writable file
    and loading that file gives the registry back: the same requests (ids,
    conversation keys, queries, owners, reply targets) under the same
    uuids, in whatever order they were inserted. *)
Theorem save_then_load :
  forall uuid4 (fs : filesystem) (path : string) (rl : RequestList.t),
    reachable rl ->
    can_write fs path = true ->
    exists fs',
      RequestList.save_to_file rl path fs = Ok fs' /\
      RequestList.load_from_file uuid4 fs' path = Ok (RequestList.Typed rl).
Proof.
  intros uuid4 fs path rl Hr Hw.
  exists (write_file fs path (RequestList.dump rl)). split.
  - now apply save_to_file_writable.
  - now apply load_dump, reachable_keyed.
Qed.

Lemma save_then_load_witness :
  exists fs',
    RequestList.save_to_file
      (fst (RequestList.add RequestList.empty request_42)) db_file
      fs_two_in_one_conversation = Ok fs' /\
    RequestList.load_from_file uuid4_fixed fs' db_file
      = Ok (RequestList.Typed
              (fst (RequestList.add RequestList.empty request_42))).
Proof.
  apply save_then_load.
  - apply reach_add, reach_new.
  - reflexivity.
Defined.

(** ** The registry: files that do not load *)

(** C7.  The claim fails where the status of the path cannot be read:
    [file_path.exists()] is called before the [try], and the [OSError] it
    raises there reaches the caller of [load_from_file]. *)
Theorem load_from_file_raises_when_exists_raises :
  RequestList.load_from_file uuid4_fixed (fs_of Inaccessible) db_file
  = Raise OSError.
Proof. reflexivity. Qed.

(** ** [sorted] *)

Section SortedFacts.
Variable A : Type.
Variable leb : A -> A -> bool.
Hypothesis leb_total : forall x y, leb x y = true \/ leb y x = true.
Hypothesis leb_antisym : forall x y, leb x y = true -> leb y x = true -> x = y.
Hypothesis leb_trans :
  forall x y z, leb x y = true -> leb y z = true -> leb x z = true.

Lemma insert_Permutation (x : A) (l : list A) :
  Permutation (insert leb x l) (x :: l).
Proof.
  induction l as [|y l IH]; simpl; [reflexivity|].
  destruct (leb x y); [reflexivity|].
  rewrite IH. apply perm_swap.
Qed.

Lemma sorted_Permutation (l : list A) : Permutation (sorted leb l) l.
Proof.
  induction l as [|x l IH]; simpl; [reflexivity|].
  rewrite insert_Permutation. now constructor.
Qed.

Lemma insert_StronglySorted (x : A) (l : list A) :
  StronglySorted (fun a b => leb a b = true) l ->
  StronglySorted (fun a b => leb a b = true) (insert leb x l).
Proof.
  induction 1 as [|y l Hl IH Hy]; simpl.
  - repeat constructor.
  - destruct (leb x y) eqn:E.
    + constructor; [now constructor|].
      constructor; [assumption|].
      eapply Forall_impl; [|exact Hy]. intros a Ha. eauto.
    + constructor; [assumption|].
      assert (Hyx : leb y x = true)
        by (destruct (leb_total x y); congruence).
      apply (Permutation_Forall (Permutation_sym (insert_Permutation x l))).
      now constructor.
Qed.

Lemma sorted_StronglySorted (l : list A) :
  StronglySorted (fun a b => leb a b = true) (sorted leb l).
Proof.
  induction l as [|x l IH]; simpl; [constructor|].
  now apply insert_StronglySorted.
Qed.

(** Two insertions commute. *)
Lemma insert_comm (x y : A) (l : list A) :
  insert leb x (insert leb y l) = insert leb y (insert leb x l).
Proof.
  induction l as [|a l IH]; simpl.
  - destruct (leb x y) eqn:Exy, (leb y x) eqn:Eyx; try reflexivity.
    + now rewrite (@leb_antisym _ _ Exy Eyx).
    + destruct (leb_total x y); congruence.
  - destruct (leb y a) eqn:Eya, (leb x a) eqn:Exa; simpl;
      rewrite ?Eya, ?Exa.
    + destruct (leb x y) eqn:Exy, (leb y x) eqn:Eyx; try reflexivity.
      * now rewrite (@leb_antisym _ _ Exy Eyx).
      * destruct (leb_total x y); congruence.
    + destruct (leb x y) eqn:Exy; [|reflexivity].
      rewrite (@leb_trans _ _ _ Exy Eya) in Exa. discriminate.
    + destruct (leb y x) eqn:Eyx; [|reflexivity].
      rewrite (@leb_trans _ _ _ Eyx Exa) in Eya. discriminate.
    + now rewrite IH.
Qed.

(** The sorted list does not depend on the order of the input. *)
Lemma sorted_Permutation_eq (l l' : list A) :
  Permutation l l' -> sorted leb l = sorted leb l'.
Proof.
  induction 1 as [|x l l' _ IH|x y l|l l' l'' _ IH1 _ IH2]; simpl.
  - reflexivity.
  - now rewrite IH.
  - apply insert_comm.
  - congruence.
Qed.
End SortedFacts.

(** ** The order on strings *)

Lemma ascii_compare_refl (c : ascii) : Ascii.compare c c = Eq.
Proof. unfold Ascii.compare. apply N.compare_refl. Qed.

Lemma str_leb_trans (s t u : string) :
  str_leb s t = true -> str_leb t u = true -> str_leb s u = true.
Proof.
  unfold str_leb, String.leb. revert t u.
  induction s as [|a s IH]; intros [|b t] [|c u]; simpl; try congruence.
  unfold Ascii.compare.
  destruct (N.compare_spec (N_of_ascii a) (N_of_ascii b)) as [Eab|Lab|Lab];
    destruct (N.compare_spec (N_of_ascii b) (N_of_ascii c)) as [Ebc|Lbc|Lbc];
    try congruence; intros H1 H2.
  - rewrite Eab, Ebc, N.compare_refl. now apply (IH t u).
  - rewrite Eab. now rewrite (proj2 (N.compare_lt_iff _ _) Lbc).
  - rewrite <- Ebc. now rewrite (proj2 (N.compare_lt_iff _ _) Lab).
  - now rewrite (proj2 (N.compare_lt_iff _ _) (N.lt_trans _ _ _ Lab Lbc)).
Qed.

Lemma Z_leb_total (x y : Z) : (x <=? y)%Z = true \/ (y <=? x)%Z = true.
Proof. rewrite !Z.leb_le. lia. Qed.

Lemma Z_leb_antisym (x y : Z) :
  (x <=? y)%Z = true -> (y <=? x)%Z = true -> x = y.
Proof. rewrite !Z.leb_le. lia. Qed.

Lemma Z_leb_trans (x y z : Z) :
  (x <=? y)%Z = true -> (y <=? z)%Z = true -> (x <=? z)%Z = true.
Proof. rewrite !Z.leb_le. lia. Qed.

(** ** Conversation keys *)

Lemma private_ids (message : Zulip.message) (us : list Zulip.user) :
  private_with message us ->
  Zulip.participant_ids (Zulip.display_recipient message)
    = Ok (map Zulip.id us).
Proof. intros [_ ->]. reflexivity. Qed.

(** C3.  For a private message with a list of participants, both
    resolvers return the same key when the list is given in another
    order. *)
Theorem conversation_key_order_independent :
  forall (users_repr : list Zulip.user -> string) (message : Zulip.message)
         (us us' : list Zulip.user),
    private_with message us ->
    Permutation us us' ->
    Arxiv.get_request_id_from_zulip_message
      users_repr (with_recipient message (Zulip.Users us'))
    = Arxiv.get_request_id_from_zulip_message users_repr message
    /\
    Kita.get_conversation_id (with_recipient message (Zulip.Users us'))
    = Kita.get_conversation_id message.
Proof.
  intros users_repr message us us' [Hty Hr] Hp.
  unfold Arxiv.get_request_id_from_zulip_message, Kita.get_conversation_id.
  simpl. rewrite Hty, Hr. simpl. split.
  - f_equal.
    apply (@sorted_Permutation_eq _ str_leb String.leb_total
                                  String.leb_antisym str_leb_trans).
    now apply Permutation_map, Permutation_map, Permutation_sym.
  - do 3 f_equal.
    apply (@sorted_Permutation_eq _ Z.leb Z_leb_total Z_leb_antisym
                                  Z_leb_trans).
    now apply Permutation_map, Permutation_sym.
Qed.

Lemma conversation_key_order_independent_witness :
  Arxiv.get_request_id_from_zulip_message
    no_repr (with_recipient private_9_10 (Zulip.Users [user_10; user_9]))
  = Arxiv.get_request_id_from_zulip_message no_repr private_9_10
  /\
  Kita.get_conversation_id
    (with_recipient private_9_10 (Zulip.Users [user_10; user_9]))
  = Kita.get_conversation_id private_9_10.
Proof.
  apply (@conversation_key_order_independent
           no_repr private_9_10 [user_9; user_10] [user_10; user_9]).
  - split; reflexivity.
  - apply perm_swap.
Defined.

(** C4, as the code has it.  For a private message with a list of
    participants, the arXiv bot's key holds the ids written in decimal,
    in ascending order of these strings; Kita's key holds the ids
    themselves, as integers, in ascending order. *)
Theorem private_key_sorted :
  forall (users_repr : list Zulip.user -> string) (message : Zulip.message)
         (us : list Zulip.user),
    private_with message us ->
    (exists key,
        Arxiv.get_request_id_from_zulip_message users_repr message = Ok key /\
        Permutation key (map (fun u => str (Zulip.id u)) us) /\
        StronglySorted (fun a b => str_leb a b = true) key)
    /\
    (exists ids,
        Kita.get_conversation_id message = Ok (Some (Kita.PrivateKey ids)) /\
        Permutation ids (map Zulip.id us) /\
        StronglySorted Z.le ids).
Proof.
  intros users_repr message us H. pose proof (private_ids H) as Hids.
  destruct H as [Hty _].
  unfold Arxiv.get_request_id_from_zulip_message, Kita.get_conversation_id.
  rewrite Hty, Hids. simpl. split.
  - eexists. split; [reflexivity|]. split.
    + rewrite sorted_Permutation. now rewrite map_map.
    + apply (@sorted_StronglySorted _ str_leb String.leb_total
                                    str_leb_trans).
  - eexists. split; [reflexivity|]. split.
    + apply sorted_Permutation.
    + eapply StronglySorted_ind with
        (P := fun l => StronglySorted Z.le l);
        [constructor | |
         apply (@sorted_StronglySorted _ Z.leb Z_leb_total Z_leb_trans)].
      intros a l _ IH Ha. constructor; [assumption|].
      eapply Forall_impl; [|exact Ha]. intros b Hb. now apply Z.leb_le.
Qed.

Lemma private_key_sorted_witness :
  (exists key,
      Arxiv.get_request_id_from_zulip_message no_repr private_9_10 = Ok key /\
      Permutation key (map (fun u => str (Zulip.id u)) [user_9; user_10]) /\
      StronglySorted (fun a b => str_leb a b = true) key)
  /\
  (exists ids,
      Kita.get_conversation_id private_9_10
        = Ok (Some (Kita.PrivateKey ids)) /\
      Permutation ids (map Zulip.id [user_9; user_10]) /\
      StronglySorted Z.le ids).
Proof.
  apply private_key_sorted. split; reflexivity.
Defined.

(** C4, as stated, fails.  For the participants 9 and 10 the arXiv bot's
    key is [("10", "9")]: the strings are sorted, not the numbers, whose
    ascending order would give [("9", "10")]. *)
Lemma private_key_not_in_numeric_order :
  Arxiv.get_request_id_from_zulip_message no_repr private_9_10
    = Ok ["10"; "9"]
  /\ map str (sorted Z.leb (map Zulip.id [user_9; user_10])) = ["9"; "10"]
  /\ Arxiv.get_request_id_from_zulip_message no_repr private_9_10
     <> Ok (map str (sorted Z.leb (map Zulip.id [user_9; user_10]))).
Proof.
  split; [reflexivity|]. split; [reflexivity|]. discriminate.
Qed.

(** C5, as the code has it.  For a message whose type is neither private
    nor stream the arXiv bot raises [ValueError], and Kita returns
    [None]. *)
Theorem unsupported_conversation_type :
  forall (users_repr : list Zulip.user -> string) (message : Zulip.message),
    Zulip.type message <> "private" ->
    Zulip.type message <> "stream" ->
    Arxiv.get_request_id_from_zulip_message users_repr message
      = Raise ValueError
    /\ Kita.get_conversation_id message = Ok None.
Proof.
  intros users_repr message Hp Hs.
  unfold Arxiv.get_request_id_from_zulip_message, Kita.get_conversation_id.
  apply String.eqb_neq in Hp, Hs. now rewrite Hp, Hs.
Qed.

Lemma unsupported_conversation_type_witness :
  Arxiv.get_request_id_from_zulip_message no_repr huddle_9_10
    = Raise ValueError
  /\ Kita.get_conversation_id huddle_9_10 = Ok None.
Proof.
  apply unsupported_conversation_type; discriminate.
Defined.

(** C5, as stated, fails for Kita: a message of type [huddle] resolves to
    [None], which is a result and not an error. *)
Lemma kita_unsupported_type_is_not_an_error :
  Zulip.type huddle_9_10 <> "private"
  /\ Zulip.type huddle_9_10 <> "stream"
  /\ Kita.get_conversation_id huddle_9_10 = Ok None
  /\ ~ (exists e, Kita.get_conversation_id huddle_9_10 = Raise e).
Proof.
  split; [discriminate|]. split; [discriminate|]. split; [reflexivity|].
  intros [e H]. discriminate.
Qed.

(** ** The parser *)

(** C8.  The claim fails on a message of more than one line.  Group 1 of
    the pattern ends at the first line feed: the prompt returned is the
    first line of the remainder, not the remainder; and when the first
    line tokenizes, no prompt is returned although the remainder does not
    tokenize. *)
Theorem prompt_is_the_first_line_only :
  Parser.parse_zulip_message
    latin1_alnum Shlex.split (fun _ tokens => Some tokens)
    ("@**kita** don't" ++ String newline "second line") "Usage: ..."
  = Ok (Some (Parser.Prompt ["don't"]))
  /\ Shlex.split ("bot " ++ strip ("don't" ++ String newline "second line"))
     = Raise ValueError
  /\ Parser.parse_zulip_message
       latin1_alnum Shlex.split (fun _ tokens => Some tokens)
       ("@**kita** hello" ++ String newline "don't") "Usage: ..."
     = Ok (Some (Parser.Args ["hello"]))
  /\ Shlex.split ("bot " ++ strip ("hello" ++ String newline "don't"))
     = Raise ValueError.
Proof. vm_compute. repeat split. Qed.

(** ** The update scan *)

Lemma scan_acc (cutoff : Z) (results : list Arxiv.entry) :
  newest_first results ->
  forall text_lines,
    Arxiv.scan cutoff results text_lines
    = text_lines ++ Arxiv.full_scan cutoff results.
Proof.
  unfold newest_first, Arxiv.full_scan.
  induction 1 as [|r rest Hrest IH Hr]; intros text_lines; simpl.
  - now rewrite app_nil_r.
  - destruct (cutoff <? Arxiv.published r)%Z eqn:E.
    + rewrite IH. simpl. now rewrite <- app_assoc.
    + (* nothing after [r] is newer than [r] *)
      assert (Hall : Forall (fun a => (Arxiv.published a
                                       <= Arxiv.published r)%Z) rest).
      { apply Sorted_StronglySorted in Hrest.
        - clear IH. induction Hrest as [|a l Hl IHl Ha]; [constructor|].
          inversion Hr as [|? ? Hra]; subst. constructor; [assumption|].
          destruct l as [|b l]; [constructor|].
          apply IHl. constructor. inversion Ha; subst. lia.
        - intros x y z Hxy Hyz. lia. }
      apply Z.ltb_ge in E.
      replace (filter _ rest) with (@nil Arxiv.entry);
        [now rewrite app_nil_r|].
      symmetry. clear - Hall E. induction Hall as [|a l Ha _ IHl];
        [reflexivity|]. simpl.
      destruct (Z.ltb_spec cutoff (Arxiv.published a)); [lia | assumption].
Qed.

(** C9.  On results sorted by descending publish time, the loop that
    leaves at the first result not after the cutoff collects the lines of
    the full scan, which keeps every result after the cutoff. *)
Theorem early_exit_scan_is_full_scan :
  forall (cutoff : Z) (results : list Arxiv.entry),
    newest_first results ->
    Arxiv.scan cutoff results [] = Arxiv.full_scan cutoff results.
Proof.
  intros cutoff results H. now rewrite scan_acc.
Qed.

Lemma early_exit_scan_is_full_scan_witness :
  Arxiv.scan 150 results_newest_first []
  = Arxiv.full_scan 150 results_newest_first.
Proof.
  apply early_exit_scan_is_full_scan.
  unfold newest_first, results_newest_first.
  repeat constructor; simpl; lia.
Defined.

(** ** Kita's conversation memory *)

Lemma conv_id_eqb_refl (conv_id : option Kita.conv_key) :
  Kita.conv_id_eqb conv_id conv_id = true.
Proof.
  destruct conv_id as [k|]; simpl; [|reflexivity].
  now destruct (Kita.conv_key_eq_dec k k).
Qed.

Lemma deque_append_length (d : list Kita.turn) (x : Kita.turn) :
  (List.length d <= Kita.maxlen)%nat ->
  List.length (Kita.deque_append d x)
    = Nat.min Kita.maxlen (S (List.length d)).
Proof.
  unfold Kita.deque_append, Kita.maxlen. intros H.
  destruct (Nat.ltb_spec (List.length d) 10).
  - rewrite length_app. cbn [List.length]. lia.
  - rewrite length_app, length_skipn. cbn [List.length]. lia.
Qed.

(** A deque within its capacity holds, after [append], the newest items
    of the old ones followed by the new one. *)
Lemma deque_append_newest (d : list Kita.turn) (x : Kita.turn) :
  (List.length d <= Kita.maxlen)%nat ->
  Kita.deque_append d x = newest Kita.maxlen (d ++ [x]).
Proof.
  unfold Kita.deque_append, newest, Kita.maxlen. intros H.
  rewrite length_app. cbn [List.length].
  destruct (Nat.ltb_spec (List.length d) 10) as [Hlt|Hge].
  - replace (List.length d + 1 - 10)%nat with 0%nat by lia. reflexivity.
  - replace (List.length d + 1 - 10)%nat with 1%nat by lia.
    destruct d as [|y d]; [simpl in Hge; lia | reflexivity].
Qed.

Lemma newest_ends (A : Type) (n : nat) (l : list A) (x : A) :
  (0 < n)%nat -> exists older, newest n (l ++ [x]) = older ++ [x].
Proof.
  unfold newest. intros Hn. rewrite length_app. cbn [List.length].
  exists (skipn (List.length l + 1 - n) l).
  rewrite skipn_app.
  replace (List.length l + 1 - n - List.length l)%nat with 0%nat by lia.
  reflexivity.
Qed.

Lemma newest_length (A : Type) (n : nat) (l : list A) :
  List.length (newest n l) = Nat.min n (List.length l).
Proof. unfold newest. rewrite length_skipn. lia. Qed.

Lemma usage_read_at (u : Z) (d : Kita.usage) :
  fst (Kita.usage_read u d) = usage_at u d.
Proof.
  unfold Kita.usage_read, usage_at. now destruct (Kita.usage_get u d).
Qed.

Lemma usage_get_app (v : Z) (d d' : Kita.usage) :
  Kita.usage_get v (d ++ d')
  = match Kita.usage_get v d with
    | Some n => Some n
    | None => Kita.usage_get v d'
    end.
Proof.
  induction d as [|[u n] d IH]; simpl; [reflexivity|].
  now destruct (Z.eqb v u).
Qed.

(** Reading a count leaves every count as it reads. *)
Lemma usage_at_read (u v : Z) (d : Kita.usage) :
  usage_at v (snd (Kita.usage_read u d)) = usage_at v d.
Proof.
  unfold Kita.usage_read, usage_at.
  destruct (Kita.usage_get u d) as [n|] eqn:Hu; [reflexivity|]. simpl.
  rewrite usage_get_app. simpl.
  destruct (Kita.usage_get v d) as [m|] eqn:Hv; [reflexivity|].
  now destruct (Z.eqb v u).
Qed.

Lemma usage_get_set (u n v : Z) (d : Kita.usage) :
  Kita.usage_get v (Kita.usage_set u n d)
  = if Z.eqb v u then Some n else Kita.usage_get v d.
Proof.
  induction d as [|[u' n'] d IH]; simpl.
  - reflexivity.
  - destruct (Z.eqb_spec u u') as [->|Hne]; simpl.
    + now destruct (Z.eqb v u').
    + rewrite IH. destruct (Z.eqb_spec v u') as [->|Hv]; [|reflexivity].
      destruct (Z.eqb_spec u' u); [congruence | reflexivity].
Qed.

(** A call without content ends the body of the [try] with an exception,
    in the state the body started from. *)
Lemma complete_no_content create st sender conv_id reply messages :
  no_content (create messages) = true ->
  exists e,
    Kita.complete create st sender conv_id reply messages = (st, Some e).
Proof.
  unfold no_content, Kita.complete.
  destruct (create messages) as [e|[|[s|] choices] total]; eauto.
  destruct s as [|c s]; [eauto|].
  destruct (strip (String c s)); [eauto | discriminate].
Qed.

(** C10.  When the sender is within quota and the completion call raises
    or returns no content, [handle_message_to_openai] raises nothing and
    sends the error text, and the user's turn is in the memory of the
    conversation, as its newest turn: the memory holds the newest 10 of the
    old turns followed by the user's turn, so it is one turn longer up to
    the capacity of 10.  The other conversations keep their memory, and no
    count changes. *)
Theorem failed_completion_keeps_user_turn :
  forall (create : list Kita.turn -> Kita.completion) (st : Kita.state)
         (sender : Z) (content : string) (conv_id : option Kita.conv_key)
         (reply : Message.t),
    let user_turn := Kita.mkturn "user" (Kita.drop_mention content) in
    let memory := Kita.conversation_memory st conv_id in
    (usage_at sender (Kita.token_usage st) <= Kita.max_tokens)%Z ->
    Kita.hashable_id conv_id = true ->
    (List.length memory <= Kita.maxlen)%nat ->
    no_content (create (newest Kita.maxlen (memory ++ [user_turn]))) = true ->
    exists st',
      Kita.handle_message_to_openai create st sender content conv_id reply
        = Ok st' /\
      Kita.conversation_memory st' conv_id
        = newest Kita.maxlen (memory ++ [user_turn]) /\
      (exists older,
          Kita.conversation_memory st' conv_id = older ++ [user_turn]) /\
      List.length (Kita.conversation_memory st' conv_id)
        = Nat.min Kita.maxlen (S (List.length memory)) /\
      (forall k, Kita.conv_id_eqb k conv_id = false ->
                 Kita.conversation_memory st' k
                   = Kita.conversation_memory st k) /\
      Kita.sent st' = Kita.sent st ++ [(reply, Kita.error_text)] /\
      (forall u, usage_at u (Kita.token_usage st')
                 = usage_at u (Kita.token_usage st)) /\
      Kita.saved_usage st' = Kita.saved_usage st.
Proof.
  intros create st sender content conv_id reply user_turn memory
         Hq Hh Hlen Hc.
  unfold Kita.handle_message_to_openai.
  pose proof (usage_read_at sender (Kita.token_usage st)) as Hused.
  pose proof (fun u => usage_at_read sender u (Kita.token_usage st)) as Hd.
  destruct (Kita.usage_read sender (Kita.token_usage st)) as [used d].
  simpl in Hused, Hd. subst used.
  destruct (Z.gtb_spec (usage_at sender (Kita.token_usage st))
                       Kita.max_tokens) as [|_]; [lia|].
  rewrite Hh. cbn [negb].
  set (st1 := Kita.remember (Kita.with_usage st d) conv_id
                (Kita.mkturn "user" (Kita.drop_mention content))).
  assert (Hmem : Kita.conversation_memory st1 conv_id
                 = newest Kita.maxlen (memory ++ [user_turn])).
  { unfold st1, Kita.remember. simpl. rewrite conv_id_eqb_refl.
    now apply deque_append_newest. }
  rewrite Hmem.
  destruct (complete_no_content create st1 sender conv_id reply _ Hc)
    as [e He].
  rewrite He. cbn [is_Exception].
  eexists. split; [reflexivity|].
  change (Kita.conversation_memory (Kita.send st1 reply Kita.error_text))
    with (Kita.conversation_memory st1).
  rewrite Hmem.
  split; [reflexivity|]. split; [|split; [|split; [|split; [|split]]]].
  - apply newest_ends. unfold Kita.maxlen. lia.
  - rewrite newest_length, length_app. cbn [List.length]. lia.
  - intros k Hk. unfold st1, Kita.remember. simpl. now rewrite Hk.
  - reflexivity.
  - exact Hd.
  - reflexivity.
Qed.

Lemma failed_completion_keeps_user_turn_witness :
  exists st',
    Kita.handle_message_to_openai create_blank kita_full 42
      "@**kita** hello" conv_research_ml reply_ml = Ok st' /\
    Kita.conversation_memory st' conv_research_ml
      = skipn 1 ten_turns ++ [Kita.mkturn "user" "hello"] /\
    Kita.sent st' = [(reply_ml, Kita.error_text)].
Proof.
  destruct (@failed_completion_keeps_user_turn
              create_blank kita_full 42 "@**kita** hello"
              conv_research_ml reply_ml)
    as [st' [H [Hm [_ [_ [_ [Hs _]]]]]]].
  - vm_compute. discriminate.
  - reflexivity.
  - simpl. unfold Kita.maxlen. lia.
  - reflexivity.
  - exists st'. split; [exact H|]. split; [exact Hm | exact Hs].
Defined.

(** ** The pattern of the mention *)

Lemma span_app (p : Z -> bool) (a b : list Z) :
  all_chars p a = true -> stops p b = true ->
  span p (a ++ b) = (a, b).
Proof.
  unfold all_chars. intros Ha Hb. induction a as [|c a IH]; simpl in *.
  - destruct b as [|c b]; [reflexivity|]. simpl in *.
    now destruct (p c).
  - apply andb_true_iff in Ha as [Hc Ha]. now rewrite Hc, IH.
Qed.

Lemma drop_prefix_app (prefix l : list Z) :
  drop_prefix prefix (prefix ++ l) = Some l.
Proof.
  induction prefix as [|x prefix IH]; simpl; [now destruct l|].
  now rewrite Z.eqb_refl.
Qed.

Lemma append_empty_r (s : string) : (s ++ EmptyString)%string = s.
Proof. induction s as [|c s IH]; simpl; [reflexivity | now rewrite IH]. Qed.

(** A line without a line feed is its own first line. *)
Lemma first_line_of_a_line (line rest : list Z) :
  all_chars not_newline line = true ->
  stops not_newline rest = true ->
  first_line (line ++ rest) = line.
Proof.
  intros Hl Hr. unfold first_line.
  now rewrite (@span_app not_newline line rest Hl Hr).
Qed.

(** What the pattern takes from a message made of the mention of a bot, a
    run of white space and a remainder that starts with no white space:
    group 1 is the first line of the remainder. *)
Lemma re_match_first_line (isalnum : Z -> bool) (message : string)
      (name ws rest : list Z) :
  code_points message = mention_of name ++ ws ++ rest ->
  name <> [] -> all_chars (is_word isalnum) name = true ->
  ws <> [] -> all_chars is_space ws = true ->
  stops is_space rest = true ->
  Parser.re_match isalnum message = Some (text (first_line rest)).
Proof.
  intros Hm Hname Hword Hws Hspace Hrest.
  unfold Parser.re_match. rewrite Hm. unfold mention_of.
  rewrite <- !app_assoc, drop_prefix_app.
  rewrite (@span_app (is_word isalnum) name
             (code_points "**" ++ ws ++ rest) Hword eq_refl).
  destruct name as [|c name]; [contradiction|].
  rewrite drop_prefix_app.
  rewrite (@span_app is_space ws rest Hspace Hrest).
  now destruct ws as [|d ws]; [contradiction|].
Qed.

(** Without the white space there is no match. *)
Lemma re_match_glued (isalnum : Z -> bool) (message : string)
      (name rest : list Z) :
  code_points message = mention_of name ++ rest ->
  all_chars (is_word isalnum) name = true ->
  stops is_space rest = true ->
  Parser.re_match isalnum message = None.
Proof.
  intros Hm Hword Hrest.
  unfold Parser.re_match. rewrite Hm. unfold mention_of.
  rewrite <- !app_assoc, drop_prefix_app.
  rewrite (@span_app (is_word isalnum) name
             (code_points "**" ++ rest) Hword eq_refl).
  destruct name as [|c name]; [reflexivity|].
  rewrite drop_prefix_app.
  destruct rest as [|d rest]; [reflexivity|].
  simpl in Hrest. simpl. apply negb_true_iff in Hrest. now rewrite Hrest.
Qed.

(* ===================================================================== *)
(** * Further properties *)
(* ===================================================================== *)

(** ** The registry: lookups after [add] and [remove] *)

Lemma dict_get_del_eq (V : Type) (k : string) (d : dict V) :
  NoDup (dict_keys d) -> dict_get k (dict_del k d) = None.
Proof.
  induction d as [|[k' v'] d IH]; simpl; intros Hn; [reflexivity|].
  inversion Hn as [|? ? Hk Hd]; subst.
  destruct (String.eqb_spec k k') as [->|Hne].
  - now apply dict_get_None.
  - simpl. destruct (String.eqb_spec k k'); [contradiction | auto].
Qed.

Lemma dict_get_del_ne (V : Type) (k k' : string) (d : dict V) :
  k' <> k -> dict_get k' (dict_del k d) = dict_get k' d.
Proof.
  intros Hne. induction d as [|[k1 v1] d IH]; simpl; [reflexivity|].
  destruct (String.eqb_spec k k1) as [->|].
  - destruct (String.eqb_spec k' k1); [contradiction | reflexivity].
  - simpl. now rewrite IH.
Qed.

Lemma dict_del_length (V : Type) (k : string) (v : V) (d : dict V) :
  dict_get k d = Some v -> List.length d = S (List.length (dict_del k d)).
Proof.
  induction d as [|[k1 v1] d IH]; simpl; [discriminate|].
  destruct (String.eqb k k1); [reflexivity|].
  intros H. simpl. now rewrite (IH H).
Qed.

Lemma dict_del_fresh (V : Type) (k : string) (v : V) (d : dict V) :
  ~ In k (dict_keys d) -> dict_del k (d ++ [(k, v)]) = d.
Proof.
  induction d as [|[k1 v1] d IH]; simpl; intros H.
  - now rewrite String.eqb_refl.
  - destruct (String.eqb_spec k k1) as [->|]; [tauto|].
    rewrite IH; tauto.
Qed.

Lemma dict_In_get (V : Type) (k : string) (v : V) (d : dict V) :
  NoDup (dict_keys d) -> In (k, v) d -> dict_get k d = Some v.
Proof.
  induction d as [|[k1 v1] d IH]; simpl; intros Hn Hin; [contradiction|].
  inversion Hn as [|? ? Hk Hd]; subst.
  destruct Hin as [E|Hin].
  - inversion E; subst. now rewrite String.eqb_refl.
  - destruct (String.eqb_spec k k1) as [->|]; [|auto].
    exfalso. apply Hk. apply in_map_iff. now exists (k1, v).
Qed.

Lemma dict_set_length_mem (V : Type) (k : string) (v v' : V) (d : dict V) :
  dict_get k d = Some v' -> List.length (dict_set k v d) = List.length d.
Proof.
  induction d as [|[k1 v1] d IH]; simpl; [discriminate|].
  destruct (String.eqb k k1); [reflexivity|].
  intros H. simpl. now rewrite (IH H).
Qed.

Lemma remove_outcomes :
  forall (rl : RequestList.t) (id : string),
    reachable rl ->
    (RequestList.get rl id = None ->
     RequestList.remove rl id = (rl, false))
    /\
    (forall r, RequestList.get rl id = Some r ->
       exists rl',
         RequestList.remove rl id = (rl', true) /\
         RequestList.get rl' id = None /\
         (forall id', id' <> id ->
                      RequestList.get rl' id' = RequestList.get rl id') /\
         RequestList.len rl = S (RequestList.len rl')).
Proof.
  intros rl id Hr. apply reachable_keyed in Hr as [Hn _].
  unfold RequestList.remove, RequestList.get, RequestList.len, dict_mem.
  split.
  - now intros ->.
  - intros r Hg. rewrite Hg. simpl. eexists. split; [reflexivity|]. simpl.
    split; [now apply dict_get_del_eq|]. split.
    + intros id' Hne. now apply dict_get_del_ne.
    + now apply dict_del_length with (v := r).
Qed.

(** X1.  In a registry the operations can produce, [remove] of an id that
    is not stored returns [False] and changes nothing; [remove] of a
    stored id returns [True], after which [get] no longer finds the id,
    every other id is found as before, and there is one request less. *)
Theorem remove_removes_exactly_one :
  forall (rl : RequestList.t) (id : string),
    reachable rl ->
    (RequestList.get rl id = None ->
     RequestList.remove rl id = (rl, false))
    /\
    (forall r, RequestList.get rl id = Some r ->
       exists rl',
         RequestList.remove rl id = (rl', true) /\
         RequestList.get rl' id = None /\
         (forall id', id' <> id ->
                      RequestList.get rl' id' = RequestList.get rl id') /\
         RequestList.len rl = S (RequestList.len rl')).
Proof. exact remove_outcomes. Qed.

Lemma remove_removes_exactly_one_witness :
  exists rl',
    RequestList.remove (fst (RequestList.add RequestList.empty request_42))
                       "uuid-1" = (rl', true) /\
    RequestList.get rl' "uuid-1" = None.
Proof.
  destruct (proj2 (@remove_removes_exactly_one
                     (fst (RequestList.add RequestList.empty request_42))
                     "uuid-1" (reach_add request_42 reach_new))
                  request_42 eq_refl)
    as [rl' [H1 [H2 _]]].
  exists rl'. split; assumption.
Defined.

(** X2.  Adding a request under a uuid that is not in use, in a
    conversation that has none, and removing that uuid again gives the
    registry back as it was. *)
Theorem add_then_remove :
  forall (rl : RequestList.t) (request : Request.t),
    RequestList.get rl (Request.uuid request) = None ->
    (forall k r, In (k, r) (RequestList.requests rl) ->
                 Request.id r <> Request.id request) ->
    RequestList.remove (fst (RequestList.add rl request))
                       (Request.uuid request)
    = (rl, true).
Proof.
  intros [d] request Hg Hc. unfold RequestList.get in Hg. simpl in *.
  unfold RequestList.add. simpl.
  rewrite (proj2 (any_eq_false request d) Hc). simpl.
  unfold RequestList.remove, dict_mem. simpl.
  rewrite dict_get_set_eq. simpl.
  apply dict_get_None in Hg.
  now rewrite dict_set_fresh, dict_del_fresh.
Qed.

Lemma add_then_remove_witness :
  RequestList.remove (fst (RequestList.add registry_42 request_9)) "uuid-3"
  = (registry_42, true).
Proof.
  apply (@add_then_remove registry_42 request_9).
  - reflexivity.
  - intros k r [E|[]]. inversion E; subst. discriminate.
Defined.

(** X3.  In a registry the operations can produce, the ids are pairwise
    distinct, they are the uuids of the stored requests in the same order,
    and [get] finds every stored request under its own uuid. *)
Theorem stored_under_own_uuid :
  forall rl : RequestList.t,
    reachable rl ->
    NoDup (RequestList.ids rl) /\
    RequestList.ids rl = map Request.uuid (RequestList.iter rl) /\
    (forall r, In r (RequestList.iter rl) ->
               RequestList.get rl (Request.uuid r) = Some r).
Proof.
  intros rl Hr. apply reachable_keyed in Hr as [Hn Hk].
  split; [assumption|]. split.
  - unfold RequestList.ids, RequestList.iter, dict_keys, dict_values.
    rewrite map_map. apply map_ext_in. intros kr Hin.
    exact (proj1 (Forall_forall _ _) Hk kr Hin).
  - intros r Hin. unfold RequestList.iter, dict_values in Hin.
    apply in_map_iff in Hin as [[k r'] [E Hin]]. simpl in E. subst r'.
    pose proof (proj1 (Forall_forall _ _) Hk _ Hin) as Hkr. simpl in Hkr.
    subst k. now apply dict_In_get.
Qed.

Lemma stored_under_own_uuid_witness :
  RequestList.ids (fst (RequestList.add registry_42 request_9))
  = map Request.uuid
        (RequestList.iter (fst (RequestList.add registry_42 request_9))).
Proof.
  apply (@stored_under_own_uuid (fst (RequestList.add registry_42 request_9))).
  apply reach_add.
  apply (reach_add request_42 reach_new).
Defined.

(** X4.  When the uuid of the new request is already in use by a request
    of another conversation, and no stored request has the new
    conversation key, [add] returns [True] and puts the new request in
    the place of the old one: the ids and the number of requests stay,
    and [get] finds the new request under the uuid. *)
Theorem add_replaces_on_uuid_collision :
  forall (rl : RequestList.t) (request old : Request.t),
    RequestList.get rl (Request.uuid request) = Some old ->
    (forall k r, In (k, r) (RequestList.requests rl) ->
                 Request.id r <> Request.id request) ->
    exists rl',
      RequestList.add rl request = (rl', true) /\
      RequestList.ids rl' = RequestList.ids rl /\
      RequestList.len rl' = RequestList.len rl /\
      RequestList.get rl' (Request.uuid request) = Some request.
Proof.
  intros [d] request old Hg Hc. unfold RequestList.get in Hg. simpl in *.
  unfold RequestList.add. simpl.
  rewrite (proj2 (any_eq_false request d) Hc).
  eexists. split; [reflexivity|].
  unfold RequestList.ids, RequestList.len, RequestList.get. simpl.
  split; [|split].
  - rewrite dict_keys_set. unfold dict_mem. now rewrite Hg.
  - now apply dict_set_length_mem with (v' := old).
  - apply dict_get_set_eq.
Qed.

Lemma add_replaces_on_uuid_collision_witness :
  exists rl',
    RequestList.add registry_42
      (Request.mk ["10"; "9"] "uuid-1" "all:GAN" 9 reply_ml) = (rl', true) /\
    RequestList.ids rl' = ["uuid-1"] /\
    RequestList.get rl' "uuid-1"
      = Some (Request.mk ["10"; "9"] "uuid-1" "all:GAN" 9 reply_ml).
Proof.
  destruct (@add_replaces_on_uuid_collision
              registry_42
              (Request.mk ["10"; "9"] "uuid-1" "all:GAN" 9 reply_ml)
              request_42 eq_refl)
    as [rl' [H1 [H2 [_ H3]]]].
  - intros k r [E|[]]. inversion E; subst. discriminate.
  - exists rl'. auto.
Defined.

(** ** The snapshot: records, and files with a bad record *)

Lemma load_items_In_raises uuid4 (items : list json) (data : json) :
  In data items ->
  (forall fresh, exists e, RequestList.load_item fresh data = Raise e) ->
  forall n, exists e, RequestList.load_items uuid4 n items = Raise e.
Proof.
  intros Hin Hbad.
  induction items as [|d items IH]; [contradiction|]. intros n. simpl.
  destruct Hin as [->|Hin].
  - destruct (Hbad (uuid4 n)) as [e ->]. simpl. eauto.
  - destruct (RequestList.load_item (uuid4 n) d); simpl; [|eauto].
    destruct (IH Hin (S n)) as [e ->]. simpl. eauto.
Qed.

Lemma load_item_missing_field fresh (data : json) (k : string) (e : exn) :
  In k required_fields ->
  subscript data k = Raise e ->
  exists e', RequestList.load_item fresh data = Raise e'.
Proof.
  unfold required_fields, RequestList.load_item, Request.from_dict.
  intros Hk He.
  destruct (subscript data "uuid") as [u|] eqn:Hu; simpl; [|eauto].
  assert (Hgd : get_default data "uuid" (JStr fresh) = Ok u).
  { unfold subscript, get_default in *. destruct data; try discriminate.
    destruct (dict_get "uuid" o); [assumption | discriminate]. }
  rewrite Hgd. simpl.
  destruct (subscript data "id") as [i|] eqn:Hi; simpl; [|eauto].
  destruct (iterate i); simpl; [|eauto].
  destruct (subscript data "query") as [q|] eqn:Hq; simpl; [|eauto].
  destruct (subscript data "owner_id") as [o|] eqn:Ho; simpl; [|eauto].
  destruct (subscript data "message") as [m|] eqn:Hm; simpl; [|eauto].
  exfalso. simpl in Hk.
  repeat (destruct Hk as [<-|Hk]; [congruence|]). contradiction.
Qed.

(** X5.  One record that lacks a field empties the load: when an item of
    the snapshot has no ["uuid"], ["id"], ["query"], ["owner_id"] or
    ["message"] (or is no dict at all), [load_from_file] returns the empty
    registry, whatever the other records hold. *)
Theorem one_bad_record_empties_the_load :
  forall uuid4 (fs : filesystem) (path : string) (raw : json)
         (items : list json) (data : json) (k : string) (e : exn),
    file_at fs path = Snapshot raw ->
    iterate raw = Ok items ->
    In data items ->
    In k required_fields ->
    subscript data k = Raise e ->
    RequestList.load_from_file uuid4 fs path
    = Ok (RequestList.Typed RequestList.empty).
Proof.
  intros uuid4 fs path raw items data k e Hf Hi Hin Hk He.
  destruct (@load_items_In_raises uuid4 items data Hin
              (fun fresh => load_item_missing_field fresh data Hk He) 0%nat)
    as [e' He'].
  unfold RequestList.load_from_file. rewrite Hf. simpl.
  rewrite Hi. simpl. rewrite He'. simpl. now destruct e'.
Qed.

Lemma one_bad_record_empties_the_load_witness :
  RequestList.load_from_file
    uuid4_fixed
    (fs_of (Snapshot (JArr [Request.to_dict request_42;
                            JObj record_without_uuid])))
    db_file
  = Ok (RequestList.Typed RequestList.empty).
Proof.
  apply (@one_bad_record_empties_the_load
           uuid4_fixed _ db_file
           (JArr [Request.to_dict request_42; JObj record_without_uuid])
           [Request.to_dict request_42; JObj record_without_uuid]
           (JObj record_without_uuid) "uuid" KeyError).
  - reflexivity.
  - reflexivity.
  - right. now left.
  - now left.
  - reflexivity.
Defined.

Lemma load_item_not_object fresh (data : json) :
  is_object data = false ->
  exists e, RequestList.load_item fresh data = Raise e.
Proof.
  intros H. unfold RequestList.load_item.
  destruct data; try discriminate; simpl; eauto.
Qed.

Lemma load_items_not_objects uuid4 (items : list json) :
  forallb is_object items = false ->
  exists e, RequestList.load_items uuid4 0 items = Raise e.
Proof.
  intros H.
  assert (Hex : exists data, In data items /\ is_object data = false).
  { induction items as [|d items IH]; [discriminate|]. simpl in H.
    destruct (is_object d) eqn:Hd.
    - destruct (IH H) as [data [Hin Hdata]]. exists data. split; [now right|].
      assumption.
    - exists d. split; [now left | assumption]. }
  destruct Hex as [data [Hin Hdata]].
  apply (@load_items_In_raises uuid4 items data Hin).
  intros fresh. now apply load_item_not_object.
Qed.

Lemma load_items_of_strings uuid4 (l : list string) :
  RequestList.load_items uuid4 0 (map JStr l) = Ok []
  \/ exists e, RequestList.load_items uuid4 0 (map JStr l) = Raise e.
Proof. destruct l as [|k l]; [now left | right; simpl; eauto]. Qed.

(** X28.  Where the status of the path can be read, [load_from_file]
    raises nothing; and it returns the empty registry when there is no
    file, when the file cannot be read, when its text is not JSON and when
    its value is not an array of objects. *)
Theorem load_from_file_falls_back_to_empty :
  forall uuid4 (fs : filesystem) (path : string),
    file_at fs path <> Inaccessible ->
    (exists l, RequestList.load_from_file uuid4 fs path = Ok l) /\
    (no_record_list (file_at fs path) = true ->
     RequestList.load_from_file uuid4 fs path
     = Ok (RequestList.Typed RequestList.empty)).
Proof.
  intros uuid4 fs path Hst. split.
  - destruct (load_from_file_cases uuid4 fs path)
      as [[E _]|[E|[raw [items [entries [_ [_ [_ E]]]]]]]];
      [contradiction | rewrite E; eauto | rewrite E; eauto].
  - unfold RequestList.load_from_file, no_record_list.
    destruct (file_at fs path) as [| | |raw|]; try reflexivity;
      [|discriminate].
    destruct raw as [|b|z|s|l|o]; intros H; try reflexivity.
    + simpl. destruct (load_items_of_strings uuid4 (chars s)) as [->|[e ->]];
        [reflexivity | now destruct e].
    + apply negb_true_iff in H.
      destruct (load_items_not_objects uuid4 l H) as [e He].
      simpl. rewrite He. now destruct e.
    + simpl. destruct (load_items_of_strings uuid4 (dict_keys o))
        as [->|[e ->]]; [reflexivity | now destruct e].
Qed.

Lemma load_from_file_falls_back_to_empty_witness :
  RequestList.load_from_file uuid4_fixed (fs_of (Snapshot not_a_list)) db_file
  = Ok (RequestList.Typed RequestList.empty)
  /\ RequestList.load_from_file
       uuid4_fixed (fs_of (Snapshot (JArr [JStr "uuid-1"]))) db_file
     = Ok (RequestList.Typed RequestList.empty).
Proof.
  split.
  - apply (proj2 (@load_from_file_falls_back_to_empty
                    uuid4_fixed (fs_of (Snapshot not_a_list)) db_file
                    ltac:(discriminate))).
    reflexivity.
  - apply (proj2 (@load_from_file_falls_back_to_empty
                    uuid4_fixed (fs_of (Snapshot (JArr [JStr "uuid-1"])))
                    db_file ltac:(discriminate))).
    reflexivity.
Defined.

(** X6.  A reply target written by [to_dict] is read back by
    [Message.from_dict] as it was. *)
Theorem message_round_trip :
  forall m : Message.t, Message.from_dict (Message.to_dict m) = Ok (Some m).
Proof. exact Message_from_to_dict. Qed.

(** X7.  A request written by [to_dict] is read back by
    [Request.from_dict] as it was, with its own uuid: the uuid drawn for
    the default is not used. *)
Theorem request_round_trip :
  forall (fresh : string) (r : Request.t),
    Request.from_dict fresh (Request.to_dict r) = Ok (Some r).
Proof.
  intros fresh r. pose proof (load_item_to_dict fresh r) as H.
  unfold RequestList.load_item in H.
  destruct (Request.from_dict fresh (Request.to_dict r)) as [o|e];
    destruct r; simpl in H; [|discriminate].
  now inversion H.
Qed.

(** X8.  A record without ["uuid"] that [Request.from_dict] accepts
    becomes a request under the uuid drawn for it. *)
Theorem from_dict_draws_missing_uuid :
  forall (fresh : string) (o : list (string * json)) (r : Request.t),
    dict_get "uuid" o = None ->
    Request.from_dict fresh (JObj o) = Ok (Some r) ->
    Request.uuid r = fresh.
Proof.
  intros fresh o r Hu H. unfold Request.from_dict in H.
  unfold get_default in H at 1. rewrite Hu in H. simpl in H.
  repeat (apply bind_Ok in H as [? [? H]]). inversion H as [Ht].
  apply typed_uuid in Ht. now inversion Ht.
Qed.

Lemma from_dict_draws_missing_uuid_witness :
  exists r,
    Request.from_dict "uuid-9" (JObj record_without_uuid) = Ok (Some r) /\
    Request.uuid r = "uuid-9".
Proof.
  exists (Request.mk ["research"; "ml"] "uuid-9" "all:GAN" 42 reply_ml).
  split; [reflexivity|].
  apply (@from_dict_draws_missing_uuid "uuid-9" record_without_uuid);
    reflexivity.
Defined.

Lemma save_to_file_returns
      (rl : RequestList.t) (path : string) (fs : filesystem) :
  exists fs', RequestList.save_to_file rl path fs = Ok fs'.
Proof.
  unfold RequestList.save_to_file.
  destruct (on_write fs path); eauto.
Qed.

(** X9.  [save_to_file] raises nothing and touches its own path only: the
    other paths stay, and so does what a write to any path comes to.  A
    path that cannot be opened keeps what it held; when the write goes
    through the path holds the dump of the registry; when the write fails
    after the file was opened, what the path held is lost and the path
    holds what the failing step left. *)
Theorem save_to_file_touches_its_path_only :
  forall (rl : RequestList.t) (path : string) (fs : filesystem),
    exists fs',
      RequestList.save_to_file rl path fs = Ok fs' /\
      (forall p, on_write fs' p = on_write fs p) /\
      (forall p, p <> path -> file_at fs' p = file_at fs p) /\
      file_at fs' path
      = match on_write fs path with
        | OpenFails => file_at fs path
        | DumpFails remains => remains
        | Written => Snapshot (RequestList.dump rl)
        end.
Proof.
  intros rl path fs. unfold RequestList.save_to_file.
  destruct (on_write fs path) as [|remains|] eqn:Hw;
    (eexists; split; [reflexivity|]); simpl;
    (split; [reflexivity|]); split;
    try (intros p Hp; now destruct (String.eqb_spec p path));
    try (now rewrite String.eqb_refl); auto.
Qed.

(** ** The reply target *)

Lemma mem_In (x : string) (l : list string) :
  Outbound.mem x l = true <-> In x l.
Proof.
  unfold Outbound.mem. rewrite existsb_exists. split.
  - intros [y [Hin Hy]]. apply String.eqb_eq in Hy. now subst.
  - intros Hin. exists x. split; [assumption | apply String.eqb_refl].
Qed.

(** X10.  The reply to a private message that someone other than the bot
    sent goes to the sender and to the participants other than the bot,
    and to no one else; the bot's own address is never among them, and
    the reply has no subject. *)
Theorem private_reply_recipients :
  forall (message : Zulip.message) (us : list Zulip.user) (email : string),
    private_with message us ->
    Zulip.sender_email message <> email ->
    exists to,
      Outbound.from_zulip_message message email
      = Ok (Some (Message.mk "private" None (Message.Addresses to))) /\
      ~ In email to /\
      (forall a, In a to <->
                 a = Zulip.sender_email message \/
                 (In a (map Zulip.email us) /\ a <> email)).
Proof.
  intros message us email [Hty Hr] Hs.
  assert (Hf : forall a,
             In a (filter (fun e => negb (String.eqb e email))
                          (map Zulip.email us))
             <-> In a (map Zulip.email us) /\ a <> email).
  { intros a. rewrite filter_In. split; intros [H1 H2]; split; auto.
    - intros ->. now rewrite String.eqb_refl in H2.
    - now destruct (String.eqb_spec a email). }
  unfold Outbound.from_zulip_message. rewrite Hty, Hr. simpl.
  eexists. split; [reflexivity|].
  destruct (Outbound.mem (Zulip.sender_email message) _) eqn:Hm; simpl.
  - apply mem_In in Hm. split.
    + intros Hin. apply Hf in Hin. tauto.
    + intros a. rewrite Hf. split; [tauto|].
      intros [->|H]; [now apply Hf | assumption].
  - split.
    + intros Hin. apply in_app_or in Hin as [Hin|[E|[]]].
      * apply Hf in Hin. tauto.
      * congruence.
    + intros a. rewrite in_app_iff, Hf. simpl. split.
      * intros [H|[E|[]]]; [now right | left; congruence].
      * intros [->|H]; [right; now left | now left].
Qed.

Lemma private_reply_recipients_witness :
  exists to,
    Outbound.from_zulip_message private_9_10 "ten@example.org"
    = Ok (Some (Message.mk "private" None (Message.Addresses to))) /\
    ~ In "ten@example.org" to.
Proof.
  destruct (@private_reply_recipients
              private_9_10 [user_9; user_10] "ten@example.org")
    as [to [H1 [H2 _]]].
  - split; reflexivity.
  - discriminate.
  - exists to. auto.
Defined.

(** ** The update window *)

(** X11.  The cutoff of an update is at 07:00 UTC, between 17 hours
    (included) and 41 hours (excluded) before the time of the call; when
    the call is made at 07:00 sharp, it is exactly one day before. *)
Theorem yesterday_7am_window :
  forall now : Z,
    (ArxivBot.yesterday_7am now mod ArxivBot.microseconds_per_day
     = 7 * ArxivBot.microseconds_per_hour)%Z /\
    (17 * ArxivBot.microseconds_per_hour
     <= now - ArxivBot.yesterday_7am now
     < 41 * ArxivBot.microseconds_per_hour)%Z /\
    ((now mod ArxivBot.microseconds_per_day
      = 7 * ArxivBot.microseconds_per_hour)%Z ->
     ArxivBot.yesterday_7am now = (now - ArxivBot.microseconds_per_day)%Z).
Proof.
  intros now.
  unfold ArxivBot.yesterday_7am, ArxivBot.microseconds_per_day,
    ArxivBot.microseconds_per_hour.
  change (24 * 3600000000)%Z with 86400000000%Z.
  change (7 * 3600000000)%Z with 25200000000%Z.
  change (17 * 3600000000)%Z with 61200000000%Z.
  change (41 * 3600000000)%Z with 147600000000%Z.
  split; [|split].
  - rewrite Z.add_comm, Z.mod_add by lia. now apply Z.mod_small.
  - pose proof (Z.div_mod (now - 86400000000) 86400000000).
    pose proof (Z.mod_pos_bound (now - 86400000000) 86400000000).
    lia.
  - intros H7.
    pose proof (Z.div_mod now 86400000000).
    pose proof (Z.div_mod (now - 86400000000) 86400000000).
    pose proof (Z.mod_pos_bound (now - 86400000000) 86400000000).
    assert (Hm : ((now - 86400000000) mod 86400000000
                  = now mod 86400000000)%Z).
    { replace (now - 86400000000)%Z with (now + (-1) * 86400000000)%Z by lia.
      apply Z.mod_add. lia. }
    lia.
Qed.

Lemma yesterday_7am_window_witness :
  ArxivBot.yesterday_7am (20000 * ArxivBot.microseconds_per_day
                          + 7 * ArxivBot.microseconds_per_hour)
  = (20000 * ArxivBot.microseconds_per_day
     + 7 * ArxivBot.microseconds_per_hour
     - ArxivBot.microseconds_per_day)%Z.
Proof.
  apply (proj2 (proj2 (yesterday_7am_window
                         (20000 * ArxivBot.microseconds_per_day
                          + 7 * ArxivBot.microseconds_per_hour)))).
  reflexivity.
Defined.

(** ** Updates *)

Lemma collect_no_failure (cutoff : Z) (results : list Arxiv.entry) :
  forall text_lines,
    ArxivBot.collect cutoff results None text_lines
    = Ok (Arxiv.scan cutoff results text_lines).
Proof.
  induction results as [|r rest IH]; simpl; intros text_lines;
    [reflexivity|].
  now destruct (cutoff <? Arxiv.published r)%Z.
Qed.

Lemma text_of_not_empty (cutoff : Z) (results : list Arxiv.entry) :
  Arxiv.text_of (Arxiv.full_scan cutoff results) <> EmptyString.
Proof.
  unfold Arxiv.full_scan.
  destruct (filter _ results) as [|r rs]; simpl; [discriminate|].
  unfold join. simpl. destruct (map Arxiv.line rs); discriminate.
Qed.

(** X12.  An update for a stored request whose search yields its results,
    newest first, without raising sends one message to the reply target
    kept with the request: a line per result published after the cutoff,
    or the text that says there is none; the text is never empty. *)
Theorem update_sends_one_message :
  forall (search : string -> list Arxiv.entry * option exn) (now : Z)
         (b : ArxivBot.bot) (request_id : string) (request : Request.t)
         (results : list Arxiv.entry),
    RequestList.get (ArxivBot.requests b) request_id = Some request ->
    search (Request.query request) = (results, None) ->
    newest_first results ->
    ArxivBot.send_updates_to_single_request search now b request_id
    = ArxivBot.say b (Request.message request)
        (Arxiv.text_of (Arxiv.full_scan (ArxivBot.yesterday_7am now) results))
    /\ Arxiv.text_of (Arxiv.full_scan (ArxivBot.yesterday_7am now) results)
       <> EmptyString.
Proof.
  intros search now b request_id request results Hg Hs Hn.
  split; [|apply text_of_not_empty].
  unfold ArxivBot.send_updates_to_single_request. rewrite Hg, Hs.
  rewrite collect_no_failure. now rewrite (scan_acc _ Hn).
Qed.

Lemma update_sends_one_message_witness :
  ArxivBot.send_updates_to_single_request search_fixed 350 bot_42 "uuid-1"
  = ArxivBot.say bot_42 reply_ml
      (Arxiv.text_of
         (Arxiv.full_scan (ArxivBot.yesterday_7am 350) results_newest_first)).
Proof.
  apply (@update_sends_one_message
           search_fixed 350 bot_42 "uuid-1" request_42 results_newest_first).
  - reflexivity.
  - reflexivity.
  - unfold newest_first, results_newest_first.
    repeat constructor; simpl; lia.
Defined.

(** What one update adds to the payloads, and that it changes nothing
    else. *)
Lemma single_update_frame
      (search : string -> list Arxiv.entry * option exn) (now : Z)
      (b : ArxivBot.bot) (request_id : string) :
  exists d,
    ArxivBot.send_updates_to_single_request search now b request_id
    = ArxivBot.mkbot (ArxivBot.requests b) (ArxivBot.fs b)
                     (ArxivBot.sent b ++ d)
    /\ (forall request results,
           RequestList.get (ArxivBot.requests b) request_id = Some request ->
           search (Request.query request) = (results, None) ->
           exists text, d = [(Request.message request, text)]).
Proof.
  unfold ArxivBot.send_updates_to_single_request.
  destruct (RequestList.get (ArxivBot.requests b) request_id) as [request|].
  - destruct (search (Request.query request)) as [results failure] eqn:Hs.
    destruct (ArxivBot.collect _ results failure []) as [lines|e] eqn:Hc.
    + eexists. split; [reflexivity|].
      intros request' results' Hg Hs'. inversion Hg; subst. eauto.
    + exists []. rewrite app_nil_r. split; [now destruct b|].
      intros request' results' Hg Hs'. inversion Hg; subst.
      rewrite Hs in Hs'. inversion Hs'; subst.
      rewrite collect_no_failure in Hc. discriminate.
  - exists []. rewrite app_nil_r. split; [now destruct b | discriminate].
Qed.

Lemma collect_cases (cutoff : Z) (results : list Arxiv.entry)
      (failure : option exn) :
  forall text_lines,
    (raises_in_loop cutoff (results, failure) = true /\
     exists e, ArxivBot.collect cutoff results failure text_lines = Raise e)
    \/ (raises_in_loop cutoff (results, failure) = false /\
        ArxivBot.collect cutoff results failure text_lines
        = Ok (Arxiv.scan cutoff results text_lines)).
Proof.
  unfold raises_in_loop. simpl.
  induction results as [|r rest IH]; intros text_lines; simpl.
  - destruct failure as [e|]; [left; eauto | right; auto].
  - destruct (cutoff <? Arxiv.published r)%Z; simpl.
    + apply IH.
    + right. now destruct failure.
Qed.

(** One update sends what [update_of] says, and changes nothing else. *)
Lemma single_update_sends
      (search : string -> list Arxiv.entry * option exn) (now : Z)
      (b : ArxivBot.bot) (request_id : string) (request : Request.t) :
  RequestList.get (ArxivBot.requests b) request_id = Some request ->
  ArxivBot.send_updates_to_single_request search now b request_id
  = ArxivBot.mkbot (ArxivBot.requests b) (ArxivBot.fs b)
                   (ArxivBot.sent b ++ update_of search now request).
Proof.
  intros Hg. unfold ArxivBot.send_updates_to_single_request, update_of.
  rewrite Hg.
  destruct (search (Request.query request)) as [results failure].
  destruct (collect_cases (ArxivBot.yesterday_7am now) results failure [])
    as [[-> [e ->]]|[-> ->]].
  - rewrite app_nil_r. now destruct b.
  - reflexivity.
Qed.

Lemma send_updates_sends
      (search : string -> list Arxiv.entry * option exn) (clock : nat -> Z)
      (rl : RequestList.t) (ids : list string) :
  forall (rs : list Request.t) (i : nat) (b : ArxivBot.bot),
    ArxivBot.requests b = rl ->
    Forall2 (fun id r => RequestList.get rl id = Some r) ids rs ->
    ArxivBot.send_updates search clock i b ids
    = ArxivBot.mkbot rl (ArxivBot.fs b)
                     (ArxivBot.sent b ++ updates_of search clock i rs).
Proof.
  induction ids as [|id ids IH]; intros rs i b Hb H; inversion H; subst; simpl.
  - rewrite app_nil_r. now destruct b.
  - rewrite (@single_update_sends search (clock i) b id y) by assumption.
    rewrite (IH l' (S i)); [|reflexivity | assumption].
    simpl. now rewrite <- app_assoc.
Qed.

Lemma dict_items_get (V : Type) (d : dict V) :
  NoDup (dict_keys d) ->
  Forall2 (fun k v => dict_get k d = Some v) (dict_keys d) (dict_values d).
Proof.
  intros Hn.
  assert (H : forall d', incl d' d ->
                Forall2 (fun k v => dict_get k d = Some v)
                        (dict_keys d') (dict_values d')).
  { induction d' as [|[k v] d' IH]; intros Hin; simpl; constructor.
    - apply dict_In_get; [assumption|]. apply Hin. now left.
    - apply IH. intros x Hx. apply Hin. now right. }
  apply H, incl_refl.
Qed.

(** X13.  A pass over all requests sends, for each request in registry
    order, the message of its update, and nothing for a request whose
    search raises: a broken search does not end the pass and costs the
    other requests nothing.  The pass changes neither the registry nor
    the files. *)
Theorem broken_search_does_not_stop_the_pass :
  forall (search : string -> list Arxiv.entry * option exn) (clock : nat -> Z)
         (b : ArxivBot.bot),
    NoDup (RequestList.ids (ArxivBot.requests b)) ->
    ArxivBot.send_updates_to_all_requests search clock b
    = ArxivBot.mkbot
        (ArxivBot.requests b) (ArxivBot.fs b)
        (ArxivBot.sent b
         ++ updates_of search clock 0 (RequestList.iter (ArxivBot.requests b))).
Proof.
  intros search clock b Hn.
  unfold ArxivBot.send_updates_to_all_requests.
  apply send_updates_sends; [reflexivity|].
  now apply dict_items_get.
Qed.

Lemma broken_search_does_not_stop_the_pass_witness :
  ArxivBot.send_updates_to_all_requests search_broken_42 (fun _ => 350%Z)
                                        bot_42_and_9
  = ArxivBot.mkbot
      (ArxivBot.requests bot_42_and_9) (ArxivBot.fs bot_42_and_9)
      [(Request.message request_9,
        Arxiv.text_of (Arxiv.full_scan (ArxivBot.yesterday_7am 350)
                                       results_newest_first))].
Proof.
  rewrite (@broken_search_does_not_stop_the_pass
             search_broken_42 (fun _ => 350%Z) bot_42_and_9).
  - reflexivity.
  - repeat constructor; simpl; intuition discriminate.
Defined.

(** ** Commands *)

Lemma save_effect (db_file : string) (b : ArxivBot.bot) :
  ArxivBot.requests (ArxivBot.save db_file b) = ArxivBot.requests b /\
  ArxivBot.sent (ArxivBot.save db_file b) = ArxivBot.sent b /\
  RequestList.save_to_file (ArxivBot.requests b) db_file (ArxivBot.fs b)
  = Ok (ArxivBot.fs (ArxivBot.save db_file b)).
Proof.
  unfold ArxivBot.save.
  destruct (save_to_file_returns
              (ArxivBot.requests b) db_file (ArxivBot.fs b)) as [fs' H].
  rewrite H. simpl. auto.
Qed.

Lemma save_in_sync (db_file : string) (b : ArxivBot.bot) :
  can_write (ArxivBot.fs b) db_file = true ->
  in_sync db_file (ArxivBot.save db_file b).
Proof.
  intros Hw. unfold in_sync, ArxivBot.save.
  rewrite (save_to_file_writable (ArxivBot.requests b) db_file
                                 (ArxivBot.fs b) Hw).
  simpl. now rewrite String.eqb_refl.
Qed.

(** X14.  [_rm_command] from a sender who is neither the owner of the
    request nor the administrator changes neither the registry nor the
    file: it only answers that the sender has no permission. *)
Theorem rm_is_for_the_owner_and_the_admin :
  forall (admin_id : Z) (db_file : string) (b : ArxivBot.bot)
         (request_id : string) (reply : Message.t) (sender_id : Z)
         (request : Request.t),
    RequestList.get (ArxivBot.requests b) request_id = Some request ->
    sender_id <> Request.owner_id request ->
    sender_id <> admin_id ->
    ArxivBot._rm_command admin_id db_file b request_id reply sender_id
    = ArxivBot.say b reply ArxivBot.denied_text.
Proof.
  intros admin_id db_file b request_id reply sender_id request Hg Ho Ha.
  unfold ArxivBot._rm_command. rewrite Hg.
  apply Z.eqb_neq in Ho, Ha. now rewrite Ho, Ha.
Qed.

Lemma rm_is_for_the_owner_and_the_admin_witness :
  ArxivBot._rm_command 1 db_file bot_42 "uuid-1" reply_ml 7
  = ArxivBot.say bot_42 reply_ml ArxivBot.denied_text.
Proof.
  apply (@rm_is_for_the_owner_and_the_admin
           1 db_file bot_42 "uuid-1" reply_ml 7 request_42);
    [reflexivity | discriminate | discriminate].
Defined.

(** X15.  [_rm_command] from the owner or the administrator, on a registry
    the operations can produce: afterwards [get] no longer finds the id,
    the other ids are found as before, the answer says so, and, the
    snapshot file being writable, the file holds the registry as it now
    is. *)
Theorem rm_removes_and_saves :
  forall (admin_id : Z) (db_file : string) (b : ArxivBot.bot)
         (request_id : string) (reply : Message.t) (sender_id : Z)
         (request : Request.t),
    reachable (ArxivBot.requests b) ->
    RequestList.get (ArxivBot.requests b) request_id = Some request ->
    sender_id = Request.owner_id request \/ sender_id = admin_id ->
    let b' :=
      ArxivBot._rm_command admin_id db_file b request_id reply sender_id in
    RequestList.get (ArxivBot.requests b') request_id = None /\
    (forall id', id' <> request_id ->
       RequestList.get (ArxivBot.requests b') id'
       = RequestList.get (ArxivBot.requests b) id') /\
    ArxivBot.sent b' = ArxivBot.sent b ++ [(reply, ArxivBot.removed_text)] /\
    (can_write (ArxivBot.fs b) db_file = true -> in_sync db_file b').
Proof.
  intros admin_id db_file b request_id reply sender_id request Hr Hg Hauth b'.
  destruct (proj2 (remove_outcomes request_id Hr) request Hg)
    as [rl' [Hrm [Hnone [Hother _]]]].
  assert (Hb' : b' = ArxivBot.say
                       (ArxivBot.save db_file
                          (ArxivBot.mkbot rl' (ArxivBot.fs b)
                                          (ArxivBot.sent b)))
                       reply ArxivBot.removed_text).
  { unfold b', ArxivBot._rm_command. rewrite Hg.
    replace (Z.eqb sender_id (Request.owner_id request)
             || Z.eqb sender_id admin_id) with true.
    - simpl. now rewrite Hrm.
    - symmetry. apply orb_true_iff. rewrite !Z.eqb_eq. exact Hauth. }
  rewrite Hb'.
  destruct (save_effect db_file
              (ArxivBot.mkbot rl' (ArxivBot.fs b) (ArxivBot.sent b)))
    as [Hreq [Hsent _]].
  simpl in Hreq, Hsent.
  split; [|split; [|split]].
  - simpl. now rewrite Hreq.
  - simpl. now rewrite Hreq.
  - simpl. unfold Outbound.send. now rewrite Hsent.
  - intros Hw.
    exact (save_in_sync db_file
             (ArxivBot.mkbot rl' (ArxivBot.fs b) (ArxivBot.sent b)) Hw).
Qed.

Lemma rm_removes_and_saves_witness :
  RequestList.get
    (ArxivBot.requests
       (ArxivBot._rm_command 1 db_file bot_42 "uuid-1" reply_ml 42))
    "uuid-1" = None.
Proof.
  apply (@rm_removes_and_saves 1 db_file bot_42 "uuid-1" reply_ml 42
                               request_42).
  - apply (reach_add request_42 reach_new).
  - reflexivity.
  - now left.
Defined.

(** X16.  [_set_command] in a conversation that already has a request
    changes neither the registry nor the file, whoever sends it and
    whatever the query: it only answers that the topic exists. *)
Theorem set_in_a_taken_conversation :
  forall (db_file : string) (users_repr : list Zulip.user -> string)
         (fresh : string) (b : ArxivBot.bot) (query : string)
         (message : Zulip.message) (reply : Message.t) (sender_id : Z)
         (id : list string),
    Arxiv.get_request_id_from_zulip_message users_repr message = Ok id ->
    (exists k r, In (k, r) (RequestList.requests (ArxivBot.requests b)) /\
                 Request.id r = id) ->
    ArxivBot._set_command db_file users_repr fresh b query message reply
                          sender_id
    = Ok (ArxivBot.say b reply ArxivBot.exists_text).
Proof.
  intros db_file users_repr fresh b query message reply sender_id id Hid Hex.
  unfold ArxivBot._set_command. rewrite Hid. simpl.
  unfold RequestList.add.
  replace (RequestList.any_eq _ _) with true; [reflexivity|].
  symmetry. now apply any_eq_true.
Qed.

Lemma set_in_a_taken_conversation_witness :
  ArxivBot._set_command db_file no_repr "uuid-5" bot_42 "all:diffusion"
                        stream_ml reply_ml 7
  = Ok (ArxivBot.say bot_42 reply_ml ArxivBot.exists_text).
Proof.
  apply (@set_in_a_taken_conversation
           db_file no_repr "uuid-5" bot_42 "all:diffusion" stream_ml
           reply_ml 7 ["research"; "ml"]).
  - reflexivity.
  - exists "uuid-1", request_42. split; [now left | reflexivity].
Defined.

(** X17.  [_set_command] in a conversation that has no request stores the
    new request, with the sender as owner and the reply target of the
    message, under the uuid drawn for it, answers with that uuid, and,
    the snapshot file being writable, leaves the file holding the
    registry as it now is. *)
Theorem set_stores_and_saves :
  forall (db_file : string) (users_repr : list Zulip.user -> string)
         (fresh : string) (b : ArxivBot.bot) (query : string)
         (message : Zulip.message) (reply : Message.t) (sender_id : Z)
         (id : list string),
    Arxiv.get_request_id_from_zulip_message users_repr message = Ok id ->
    (forall k r, In (k, r) (RequestList.requests (ArxivBot.requests b)) ->
                 Request.id r <> id) ->
    exists b',
      ArxivBot._set_command db_file users_repr fresh b query message reply
                            sender_id = Ok b' /\
      RequestList.get (ArxivBot.requests b') fresh
      = Some (Request.mk id fresh query sender_id reply) /\
      ArxivBot.sent b'
      = ArxivBot.sent b ++ [(reply, ArxivBot.added_text fresh)] /\
      (can_write (ArxivBot.fs b) db_file = true -> in_sync db_file b').
Proof.
  intros db_file users_repr fresh b query message reply sender_id id Hid Hno.
  unfold ArxivBot._set_command. rewrite Hid. simpl.
  unfold RequestList.add.
  replace (RequestList.any_eq _ _) with false
    by (symmetry; now apply any_eq_false).
  simpl. eexists. split; [reflexivity|].
  match goal with
  | |- context [ArxivBot.save db_file ?x] =>
      destruct (save_effect db_file x) as [Hreq [Hsent _]];
      pose proof (save_in_sync db_file x) as Hsync
  end.
  simpl in Hreq, Hsent, Hsync. simpl.
  split; [|split].
  - rewrite Hreq. unfold RequestList.get. simpl. apply dict_get_set_eq.
  - unfold Outbound.send. now rewrite Hsent.
  - exact Hsync.
Qed.

Lemma set_stores_and_saves_witness :
  exists b',
    ArxivBot._set_command db_file no_repr "uuid-5" bot_42 "all:GAN"
                          private_9_10 (Request.message request_9) 9
    = Ok b' /\
    RequestList.get (ArxivBot.requests b') "uuid-5"
    = Some (Request.mk ["10"; "9"] "uuid-5" "all:GAN" 9
                       (Request.message request_9)).
Proof.
  destruct (@set_stores_and_saves
              db_file no_repr "uuid-5" bot_42 "all:GAN" private_9_10
              (Request.message request_9) 9 ["10"; "9"])
    as [b' [H1 [H2 _]]].
  - reflexivity.
  - intros k r [E|[]]. inversion E; subst. discriminate.
  - exists b'. auto.
Defined.

(** ** The listing *)

Lemma string_append_assoc (a b c : string) :
  ((a ++ b) ++ c)%string = (a ++ (b ++ c))%string.
Proof. induction a as [|x a IH]; simpl; [reflexivity | now rewrite IH]. Qed.

Lemma list_loop_filter (show_all : bool) (sender_id : Z)
      (rs : list Request.t) :
  forall msg found,
    ArxivBot.list_loop show_all sender_id rs msg found
    = ((msg ++ entries_text (filter (listed show_all sender_id) rs))%string,
       found || existsb (listed show_all sender_id) rs).
Proof.
  unfold entries_text, listed.
  induction rs as [|r rs IH]; intros msg found; simpl.
  - now rewrite append_empty_r, orb_false_r.
  - destruct (show_all || Z.eqb (Request.owner_id r) sender_id); simpl.
    + rewrite IH, string_append_assoc. now rewrite orb_true_r.
    + apply IH.
Qed.

Lemma list_command_unfolded :
  forall (b : ArxivBot.bot) (scope : ArxivBot.scope) (reply : Message.t)
         (sender_id : Z),
    let shown :=
      filter (listed (shows_all scope) sender_id)
             (RequestList.iter (ArxivBot.requests b)) in
    ArxivBot._list_command b scope reply sender_id
    = ArxivBot.say b reply
        (ArxivBot.list_header (shows_all scope)
         ++ match shown with
            | [] => "None."
            | _ :: _ => entries_text shown
            end)%string.
Proof.
  intros b scope reply sender_id shown.
  unfold ArxivBot._list_command. fold (shows_all scope).
  rewrite list_loop_filter. fold shown. simpl.
  assert (Hex : existsb (listed (shows_all scope) sender_id)
                        (RequestList.iter (ArxivBot.requests b))
                = match shown with [] => false | _ :: _ => true end).
  { unfold shown.
    induction (RequestList.iter (ArxivBot.requests b)) as [|r rs IH];
      simpl; [reflexivity|].
    destruct (listed (shows_all scope) sender_id r); simpl; auto. }
  rewrite Hex. destruct shown as [|r rs]; simpl; [|reflexivity].
  unfold entries_text. simpl. now rewrite append_empty_r.
Qed.

(** X18.  [_list_command] sends one message and changes nothing else.
    Under the scope ["all"] it lists every request; under any other scope,
    a flag included, it lists the requests the sender owns.  The message
    is the header, then the entries in registry order, or [None.] when
    there is no request to show. *)
Theorem list_command_text :
  forall (b : ArxivBot.bot) (scope : ArxivBot.scope) (reply : Message.t)
         (sender_id : Z),
    let shown :=
      filter (listed (shows_all scope) sender_id)
             (RequestList.iter (ArxivBot.requests b)) in
    ArxivBot._list_command b scope reply sender_id
    = ArxivBot.say b reply
        (ArxivBot.list_header (shows_all scope)
         ++ match shown with
            | [] => "None."
            | _ :: _ => entries_text shown
            end)%string.
Proof. exact list_command_unfolded. Qed.

(** ** Events *)

Section Events.
Variable admin_id : Z.
Variable db_file : string.
Variable email : string.
Variable doc : string.
Variable users_repr : list Zulip.user -> string.
Variable search : string -> list Arxiv.entry * option exn.
Variable isalnum : Z -> bool.
Variable shlex_split : string -> result (list string).
Variable docopt : string -> list string -> option ArxivBot.args.

Lemma effect_say (b : ArxivBot.bot) (reply : Message.t) (text : string) :
  effect db_file b (ArxivBot.say b reply text).
Proof. now apply Unchanged. Qed.

Lemma effect_saved (b : ArxivBot.bot) (rl : RequestList.t)
      (reply : Message.t) (text : string) :
  ArxivBot.requests
    (ArxivBot.say
       (ArxivBot.save db_file
          (ArxivBot.mkbot rl (ArxivBot.fs b) (ArxivBot.sent b)))
       reply text) = rl /\
  RequestList.save_to_file rl db_file (ArxivBot.fs b)
  = Ok (ArxivBot.fs
          (ArxivBot.say
             (ArxivBot.save db_file
                (ArxivBot.mkbot rl (ArxivBot.fs b) (ArxivBot.sent b)))
             reply text)).
Proof.
  destruct (save_effect db_file
              (ArxivBot.mkbot rl (ArxivBot.fs b) (ArxivBot.sent b)))
    as [Hreq [_ Hsave]].
  simpl in *. now split.
Qed.

Lemma dispatch_effect fresh now b cmd_args message reply sender_id b' :
  ArxivBot.dispatch admin_id db_file users_repr search fresh now b cmd_args
                    message reply sender_id = Ok b' ->
  effect db_file b b'.
Proof.
  unfold ArxivBot.dispatch.
  destruct cmd_args as [prompt|help|a].
  - intros H. inversion H. apply effect_say.
  - intros H. inversion H. apply effect_say.
  - destruct (ArxivBot.cmd_set a).
    { unfold ArxivBot._set_command. intros H.
      apply bind_Ok in H as [id [_ H]].
      destruct (RequestList.add (ArxivBot.requests b) _) as [rl added] eqn:Ha.
      destruct added; inversion H; [|apply effect_say].
      destruct (effect_saved b rl reply (ArxivBot.added_text fresh))
        as [Hreq Hsave].
      eapply Added.
      - rewrite Ha. exact Hreq.
      - simpl in *. rewrite Hreq. exact Hsave. }
    destruct (ArxivBot.cmd_rm a).
    { destruct (ArxivBot.arg_query_id a) as [request_id|];
        intros H; inversion H; [|apply effect_say].
      unfold ArxivBot._rm_command.
      destruct (RequestList.get (ArxivBot.requests b) request_id);
        [|apply effect_say].
      destruct (negb _); [apply effect_say|].
      destruct (RequestList.remove (ArxivBot.requests b) request_id)
        as [rl removed] eqn:Hr.
      destruct (effect_saved b rl reply ArxivBot.removed_text)
        as [Hreq Hsave].
      eapply Removed.
      - rewrite Hr. exact Hreq.
      - simpl in *. rewrite Hreq. exact Hsave. }
    destruct (ArxivBot.cmd_list a).
    { intros H. inversion H. rewrite list_command_unfolded. apply effect_say. }
    destruct (ArxivBot.cmd_force a); [|intros H; inversion H; apply effect_say].
    destruct (ArxivBot.arg_query_id a) as [request_id|];
      intros H; inversion H; [|apply effect_say].
    unfold ArxivBot._force_command.
    destruct (RequestList.get (ArxivBot.requests b) request_id);
      [|apply effect_say].
    destruct (single_update_frame search now b request_id) as [d [-> _]].
    now apply Unchanged.
Qed.

Lemma handle_event_effect fresh now b ev b' :
  ArxivBot.handle_event admin_id db_file email doc users_repr search
                        isalnum shlex_split docopt fresh now b ev = Some b' ->
  effect db_file b b'.
Proof.
  unfold ArxivBot.handle_event, ArxivBot.handle.
  destruct (Outbound.from_zulip_message (ArxivBot.message ev) email)
    as [reply|e]; simpl;
    [|intros H; inversion H; now apply Unchanged].
  destruct (negb _ || _); simpl;
    [intros H; inversion H; now apply Unchanged|].
  destruct reply as [reply|]; [|discriminate].
  destruct (Parser.parse_zulip_message isalnum shlex_split docopt _ doc)
    as [[cmd_args|]|e]; simpl.
  - destruct (ArxivBot.dispatch admin_id db_file users_repr search fresh now
                b cmd_args (ArxivBot.message ev) reply
                (Zulip.sender_id (ArxivBot.message ev))) as [b1|e] eqn:Hd;
      simpl; intros H; inversion H; subst.
    + now apply dispatch_effect in Hd.
    + now apply Unchanged.
  - intros H. inversion H. apply effect_say.
  - intros H. inversion H. now apply Unchanged.
Qed.

(** X19.  Whatever the event, [handle_event] keeps the registry free of
    two requests in one conversation. *)
Theorem handle_event_keeps_conversations_unique :
  forall (fresh : string) (now : Z) (b b' : ArxivBot.bot)
         (ev : ArxivBot.event),
    unique_conversations (ArxivBot.requests b) ->
    ArxivBot.handle_event admin_id db_file email doc users_repr search
                          isalnum shlex_split docopt fresh now b ev = Some b' ->
    unique_conversations (ArxivBot.requests b').
Proof.
  intros fresh now b b' ev Hu H.
  destruct (handle_event_effect fresh now b ev H)
    as [Hreq _|request Hreq _|request_id Hreq _]; rewrite Hreq.
  - assumption.
  - now apply add_unique.
  - now apply remove_unique.
Qed.

(** X20.  Whatever the event, when the snapshot file is writable and the
    registry is one the operations can produce, [handle_event] leaves the
    registry and the files as they were, or leaves a snapshot file from
    which [load_from_file] gives the registry as it now is: every change
    is saved at once. *)
Theorem handle_event_saves_every_change :
  forall uuid4 (fresh : string) (now : Z) (b b' : ArxivBot.bot)
         (ev : ArxivBot.event),
    reachable (ArxivBot.requests b) ->
    can_write (ArxivBot.fs b) db_file = true ->
    ArxivBot.handle_event admin_id db_file email doc users_repr search
                          isalnum shlex_split docopt fresh now b ev = Some b' ->
    (ArxivBot.requests b' = ArxivBot.requests b /\
     ArxivBot.fs b' = ArxivBot.fs b)
    \/ RequestList.load_from_file uuid4 (ArxivBot.fs b') db_file
       = Ok (RequestList.Typed (ArxivBot.requests b')).
Proof.
  intros uuid4 fresh now b b' ev Hr Hw H.
  destruct (handle_event_effect fresh now b ev H)
    as [Hreq Hfs|request Hreq Hsave|request_id Hreq Hsave];
    [left; now split | right | right].
  - rewrite (save_to_file_writable _ db_file (ArxivBot.fs b) Hw) in Hsave.
    inversion Hsave as [Hfs]. apply load_dump, reachable_keyed.
    rewrite Hreq. now apply reach_add.
  - rewrite (save_to_file_writable _ db_file (ArxivBot.fs b) Hw) in Hsave.
    inversion Hsave as [Hfs]. apply load_dump, reachable_keyed.
    rewrite Hreq. now apply reach_remove.
Qed.

(** X21.  [handle_event] does nothing on an event that is no message or
    whose message the bot sent itself: no reply, no change. *)
Theorem handle_event_skips_own_messages :
  forall (fresh : string) (now : Z) (b : ArxivBot.bot) (ev : ArxivBot.event),
    ArxivBot.event_type ev <> Some "message" \/
    Zulip.sender_email (ArxivBot.message ev) = email ->
    ArxivBot.handle_event admin_id db_file email doc users_repr search
                          isalnum shlex_split docopt fresh now b ev = Some b.
Proof.
  intros fresh now b ev Hskip.
  unfold ArxivBot.handle_event, ArxivBot.handle.
  destruct (Outbound.from_zulip_message (ArxivBot.message ev) email)
    as [reply|e]; simpl; [|reflexivity].
  replace (negb _ || _) with true; [reflexivity|].
  symmetry. apply orb_true_iff. destruct Hskip as [Hty|Hs].
  - left. destruct (ArxivBot.event_type ev) as [t|]; [|reflexivity].
    destruct (String.eqb_spec t "message"); [congruence | reflexivity].
  - right. rewrite Hs. apply String.eqb_refl.
Qed.

(** X22.  With [all] reported by docopt as a flag, [list all] is answered
    like [list]: [handle_event] passes the flag itself as scope, which is
    not the text ["all"], so the listing shows the requests of the sender
    only, under the header for one's own topics. *)
Theorem list_all_lists_own_requests :
  forall (fresh : string) (now : Z) (b : ArxivBot.bot) (ev : ArxivBot.event)
         (reply : Message.t) (a : ArxivBot.args),
    ArxivBot.event_type ev = Some "message" ->
    Zulip.sender_email (ArxivBot.message ev) <> email ->
    Outbound.from_zulip_message (ArxivBot.message ev) email
    = Ok (Some reply) ->
    Parser.parse_zulip_message isalnum shlex_split docopt
      (Zulip.content (ArxivBot.message ev)) doc
    = Ok (Some (Parser.Args a)) ->
    ArxivBot.cmd_set a = false ->
    ArxivBot.cmd_rm a = false ->
    ArxivBot.cmd_list a = true ->
    ArxivBot.handle_event admin_id db_file email doc users_repr search
                          isalnum shlex_split docopt fresh now b ev
    = Some (ArxivBot._list_command b (ArxivBot.ScopeText EmptyString) reply
              (Zulip.sender_id (ArxivBot.message ev)))
    /\ shows_all (if ArxivBot.cmd_all a then ArxivBot.ScopeFlag true
                  else ArxivBot.ScopeText EmptyString) = false.
Proof.
  intros fresh now b ev reply a Hty Hs Hreply Hparse Hset Hrm Hlist.
  split; [|now destruct (ArxivBot.cmd_all a)].
  unfold ArxivBot.handle_event, ArxivBot.handle.
  rewrite Hreply, Hty. simpl.
  apply String.eqb_neq in Hs. rewrite Hs. simpl.
  rewrite Hparse. simpl. rewrite Hset, Hrm, Hlist. simpl.
  rewrite !list_command_unfolded. now destruct (ArxivBot.cmd_all a).
Qed.

End Events.

Lemma handle_event_keeps_conversations_unique_witness :
  unique_conversations (ArxivBot.requests bot_after_set).
Proof.
  apply (@handle_event_keeps_conversations_unique
           1 db_file bot_email "Usage: ..." no_repr search_fixed
           latin1_alnum Shlex.split docopt_set "uuid-5" 350 bot_42 bot_after_set
           event_set_private).
  - repeat constructor. intros [].
  - reflexivity.
Defined.

Lemma handle_event_saves_every_change_witness :
  (ArxivBot.requests bot_after_set = ArxivBot.requests bot_42 /\
   ArxivBot.fs bot_after_set = ArxivBot.fs bot_42)
  \/ RequestList.load_from_file uuid4_fixed (ArxivBot.fs bot_after_set)
                                db_file
     = Ok (RequestList.Typed (ArxivBot.requests bot_after_set)).
Proof.
  apply (@handle_event_saves_every_change
           1 db_file bot_email "Usage: ..." no_repr search_fixed
           latin1_alnum Shlex.split docopt_set uuid4_fixed "uuid-5" 350 bot_42
           bot_after_set event_set_private).
  - apply (reach_add request_42 reach_new).
  - reflexivity.
  - reflexivity.
Defined.

Lemma handle_event_skips_own_messages_witness :
  handle_sample docopt_list_all bot_42 event_from_the_bot = Some bot_42.
Proof.
  apply (@handle_event_skips_own_messages
           1 db_file bot_email "Usage: ..." no_repr search_fixed
           latin1_alnum Shlex.split docopt_list_all "uuid-5" 350 bot_42
           event_from_the_bot).
  now right.
Defined.

Lemma list_all_lists_own_requests_witness :
  handle_sample docopt_list_all bot_42 event_list_all
  = Some (ArxivBot._list_command bot_42 (ArxivBot.ScopeText EmptyString)
            (Message.mk "stream" (Some "ml") (Message.Stream "research")) 7).
Proof.
  apply (@list_all_lists_own_requests
           1 db_file bot_email "Usage: ..." no_repr search_fixed
           latin1_alnum Shlex.split docopt_list_all "uuid-5" 350 bot_42
           event_list_all
           (Message.mk "stream" (Some "ml") (Message.Stream "research"))
           args_list_all);
    try reflexivity.
  discriminate.
Defined.

(** ** Kita: answers, quota and the size of the memory *)

Lemma deque_append_bounded (d : list Kita.turn) (x : Kita.turn) :
  (List.length d <= Kita.maxlen)%nat ->
  (List.length (Kita.deque_append d x) <= Kita.maxlen)%nat.
Proof. intros H. rewrite deque_append_length by assumption. lia. Qed.

Lemma remember_bounded (st : Kita.state) (conv_id : option Kita.conv_key)
      (x : Kita.turn) :
  memory_bounded st -> memory_bounded (Kita.remember st conv_id x).
Proof.
  intros H k. unfold Kita.remember. simpl.
  destruct (Kita.conv_id_eqb k conv_id); [|apply H].
  apply deque_append_bounded, H.
Qed.

Lemma newest_twice (A : Type) (n : nat) (l : list A) (x : A) :
  (0 < n)%nat -> newest n (newest n l ++ [x]) = newest n (l ++ [x]).
Proof.
  unfold newest. intros Hn.
  rewrite !length_app, length_skipn. cbn [List.length].
  destruct (Nat.le_gt_cases (List.length l) n) as [Hle|Hgt].
  - replace (List.length l - n)%nat with 0%nat by lia. cbn [skipn].
    f_equal. lia.
  - replace (List.length l - (List.length l - n) + 1 - n)%nat with 1%nat
      by lia.
    rewrite !skipn_app, skipn_skipn, length_skipn.
    replace (1 - (List.length l - (List.length l - n)))%nat with 0%nat by lia.
    replace (List.length l + 1 - n - List.length l)%nat with 0%nat by lia.
    f_equal. f_equal. lia.
Qed.

(** Reading a count a second time stores nothing. *)
Lemma usage_read_read (u : Z) (d : Kita.usage) :
  Kita.usage_read u (snd (Kita.usage_read u d))
  = (usage_at u d, snd (Kita.usage_read u d)).
Proof.
  unfold Kita.usage_read, usage_at.
  destruct (Kita.usage_get u d) as [n|] eqn:Hu; simpl.
  - now rewrite Hu.
  - rewrite usage_get_app, Hu. simpl. now rewrite Z.eqb_refl.
Qed.

Lemma storable_read (u : Z) (d : Kita.usage) :
  Kita.storable u = true ->
  forallb Kita.storable_item d = true ->
  forallb Kita.storable_item (snd (Kita.usage_read u d)) = true.
Proof.
  intros Hu Hd. unfold Kita.usage_read.
  destruct (Kita.usage_get u d); simpl; [assumption|].
  rewrite forallb_app, Hd. simpl. unfold Kita.storable_item. simpl.
  now rewrite Hu.
Qed.

Lemma storable_set (u n : Z) (d : Kita.usage) :
  Kita.storable u = true -> Kita.storable n = true ->
  forallb Kita.storable_item d = true ->
  forallb Kita.storable_item (Kita.usage_set u n d) = true.
Proof.
  intros Hu Hn. induction d as [|[u' n'] d IH]; simpl; intros Hd.
  - unfold Kita.storable_item. simpl. now rewrite Hu, Hn.
  - apply andb_true_iff in Hd as [Hi Hd].
    destruct (Z.eqb_spec u u') as [<-|Hne]; simpl.
    + rewrite Hd. unfold Kita.storable_item. simpl. now rewrite Hu, Hn.
    + now rewrite Hi, IH.
Qed.

(** The state in which the body of the [try] saves the counts, after an
    answer with text: both turns are remembered and the tokens added. *)
Lemma state_at_the_save :
  forall (create : list Kita.turn -> Kita.completion) (st : Kita.state)
         (sender : Z) (content : string) (conv_id : option Kita.conv_key)
         (reply : Message.t) (s : string) (choices : list (option string))
         (n : Z),
    let user_turn := Kita.mkturn "user" (Kita.drop_mention content) in
    let memory := Kita.conversation_memory st conv_id in
    let d := snd (Kita.usage_read sender (Kita.token_usage st)) in
    let st2 :=
      Kita.add_tokens
        (Kita.remember
           (Kita.remember (Kita.with_usage st d) conv_id user_turn)
           conv_id (Kita.mkturn "assistant" (strip s)))
        sender n in
    (usage_at sender (Kita.token_usage st) <= Kita.max_tokens)%Z ->
    Kita.hashable_id conv_id = true ->
    (List.length memory <= Kita.maxlen)%nat ->
    create (newest Kita.maxlen (memory ++ [user_turn]))
    = Kita.Response (Some s :: choices) (Some n) ->
    strip s <> EmptyString ->
    Kita.handle_message_to_openai create st sender content conv_id reply
    = match Kita.save_token_usage st2 with
      | Ok st3 => Ok (Kita.send st3 reply (strip s))
      | Raise e => Ok (Kita.send st2 reply Kita.error_text)
      end
    /\ Kita.conversation_memory st2 conv_id
       = newest Kita.maxlen
           (memory ++ [user_turn; Kita.mkturn "assistant" (strip s)])
    /\ (forall k, Kita.conv_id_eqb k conv_id = false ->
                  Kita.conversation_memory st2 k
                  = Kita.conversation_memory st k)
    /\ Kita.token_usage st2
       = Kita.usage_set sender (usage_at sender (Kita.token_usage st) + n) d
    /\ Kita.saved_usage st2 = Kita.saved_usage st
    /\ Kita.db_accepts st2 = Kita.db_accepts st
    /\ Kita.sent st2 = Kita.sent st.
Proof.
  intros create st sender content conv_id reply s choices n user_turn memory
         d st2 Hq Hh Hlen Hc Hs.
  assert (Hst2 : st2
                 = Kita.with_usage
                     (Kita.remember
                        (Kita.remember (Kita.with_usage st d) conv_id
                                       user_turn)
                        conv_id (Kita.mkturn "assistant" (strip s)))
                     (Kita.usage_set
                        sender (usage_at sender (Kita.token_usage st) + n)
                        d)).
  { unfold st2, Kita.add_tokens.
    change (Kita.token_usage
              (Kita.remember
                 (Kita.remember (Kita.with_usage st d) conv_id user_turn)
                 conv_id (Kita.mkturn "assistant" (strip s))))
      with d.
    unfold d. now rewrite usage_read_read. }
  assert (Hmem1 : Kita.conversation_memory
                    (Kita.remember (Kita.with_usage st d) conv_id user_turn)
                    conv_id
                  = newest Kita.maxlen (memory ++ [user_turn])).
  { unfold Kita.remember. simpl. rewrite conv_id_eqb_refl.
    now apply deque_append_newest. }
  split; [|split; [|split; [|split; [|split; [|split]]]]].
  - unfold Kita.handle_message_to_openai.
    assert (Hr : Kita.usage_read sender (Kita.token_usage st)
                 = (usage_at sender (Kita.token_usage st), d)).
    { unfold d. rewrite <- usage_read_at. apply surjective_pairing. }
    rewrite Hr.
    destruct (Z.gtb_spec (usage_at sender (Kita.token_usage st))
                         Kita.max_tokens) as [|_]; [lia|].
    rewrite Hh. cbn [negb]. fold user_turn. rewrite Hmem1.
    unfold Kita.complete at 1. rewrite Hc.
    destruct s as [|c s]; [now elim Hs|].
    destruct (strip (String c s)) as [|c' s'] eqn:Hstrip; [now elim Hs|].
    fold user_turn. fold st2.
    now destruct (Kita.save_token_usage st2).
  - rewrite Hst2. unfold Kita.with_usage, Kita.remember. simpl.
    rewrite !conv_id_eqb_refl.
    rewrite (deque_append_newest _ _ Hlen).
    rewrite deque_append_newest by (rewrite newest_length; lia).
    rewrite newest_twice by (unfold Kita.maxlen; lia).
    now rewrite <- app_assoc.
  - intros k Hk. rewrite Hst2. unfold Kita.with_usage, Kita.remember. simpl.
    now rewrite Hk.
  - now rewrite Hst2.
  - now rewrite Hst2.
  - now rewrite Hst2.
  - now rewrite Hst2.
Qed.

Lemma answer_effect :
  forall (create : list Kita.turn -> Kita.completion) (st : Kita.state)
         (sender : Z) (content : string) (conv_id : option Kita.conv_key)
         (reply : Message.t) (s : string) (choices : list (option string))
         (n : Z),
    let user_turn := Kita.mkturn "user" (Kita.drop_mention content) in
    let memory := Kita.conversation_memory st conv_id in
    (usage_at sender (Kita.token_usage st) <= Kita.max_tokens)%Z ->
    Kita.hashable_id conv_id = true ->
    (List.length memory <= Kita.maxlen)%nat ->
    create (newest Kita.maxlen (memory ++ [user_turn]))
    = Kita.Response (Some s :: choices) (Some n) ->
    strip s <> EmptyString ->
    Kita.db_accepts st = true ->
    forallb Kita.storable_item (Kita.token_usage st) = true ->
    Kita.storable sender = true ->
    Kita.storable (usage_at sender (Kita.token_usage st) + n) = true ->
    exists st',
      Kita.handle_message_to_openai create st sender content conv_id reply
        = Ok st' /\
      Kita.conversation_memory st' conv_id
        = newest Kita.maxlen
            (memory ++ [user_turn; Kita.mkturn "assistant" (strip s)]) /\
      Kita.sent st' = Kita.sent st ++ [(reply, strip s)] /\
      usage_at sender (Kita.token_usage st')
        = (usage_at sender (Kita.token_usage st) + n)%Z /\
      (forall u, u <> sender ->
                 usage_at u (Kita.token_usage st')
                 = usage_at u (Kita.token_usage st)) /\
      (forall u k, Kita.usage_get u (Kita.token_usage st') = Some k ->
                   Kita.saved_usage st' u = Some k).
Proof.
  intros create st sender content conv_id reply s choices n user_turn memory
         Hq Hh Hlen Hc Hs Hdb Hfit Hsender Hsum.
  destruct (@state_at_the_save create st sender content conv_id reply s
                               choices n Hq Hh Hlen Hc Hs)
    as [H [Hmem [_ [Hu [_ [Hacc Hsent]]]]]].
  fold user_turn memory in H, Hmem.
  set (d := snd (Kita.usage_read sender (Kita.token_usage st))) in *.
  set (st2 := Kita.add_tokens _ sender n) in *.
  assert (Hsave : exists st3,
             Kita.save_token_usage st2 = Ok st3 /\
             Kita.conversation_memory st3 = Kita.conversation_memory st2 /\
             Kita.token_usage st3 = Kita.token_usage st2 /\
             Kita.sent st3 = Kita.sent st2 /\
             (forall u k, Kita.usage_get u (Kita.token_usage st2) = Some k ->
                          Kita.saved_usage st3 u = Some k)).
  { unfold Kita.save_token_usage. rewrite Hacc, Hdb. cbn [negb].
    rewrite Hu.
    assert (Hall : forallb Kita.storable_item
                     (Kita.usage_set
                        sender (usage_at sender (Kita.token_usage st) + n) d)
                   = true).
    { apply storable_set; [assumption | assumption |].
      now apply storable_read. }
    rewrite Hall.
    eexists. split; [reflexivity|]. simpl.
    repeat split; try assumption. intros u k Hk. now rewrite Hk. }
  destruct Hsave as [st3 [Hsave [Hm3 [Hu3 [Hs3 Hrows]]]]].
  rewrite Hsave in H. exists (Kita.send st3 reply (strip s)).
  split; [exact H|].
  split; [|split; [|split; [|split]]].
  - simpl. now rewrite Hm3.
  - simpl. now rewrite Hs3, Hsent.
  - simpl. rewrite Hu3, Hu. unfold usage_at at 1.
    now rewrite usage_get_set, Z.eqb_refl.
  - intros u Hne. simpl. rewrite Hu3, Hu. unfold usage_at at 1.
    rewrite usage_get_set. apply Z.eqb_neq in Hne. rewrite Hne.
    exact (usage_at_read sender u (Kita.token_usage st)).
  - intros u k Hk. simpl in *. rewrite Hu3 in Hk. now apply Hrows.
Qed.

(** X23.  When the sender is within quota, the completion has text left
    once stripped, and the database stores the counts (it takes the write,
    and every count is within 64 bits), the conversation remembers the
    user's turn and then the stripped answer, the answer is sent, and the
    tokens the response reports are added to the sender's count; the
    counts of the other users stay, and every count is in the table. *)
Theorem answered_prompt :
  forall (create : list Kita.turn -> Kita.completion) (st : Kita.state)
         (sender : Z) (content : string) (conv_id : option Kita.conv_key)
         (reply : Message.t) (s : string) (choices : list (option string))
         (n : Z),
    let user_turn := Kita.mkturn "user" (Kita.drop_mention content) in
    let memory := Kita.conversation_memory st conv_id in
    (usage_at sender (Kita.token_usage st) <= Kita.max_tokens)%Z ->
    Kita.hashable_id conv_id = true ->
    (List.length memory <= Kita.maxlen)%nat ->
    create (newest Kita.maxlen (memory ++ [user_turn]))
    = Kita.Response (Some s :: choices) (Some n) ->
    strip s <> EmptyString ->
    Kita.db_accepts st = true ->
    forallb Kita.storable_item (Kita.token_usage st) = true ->
    Kita.storable sender = true ->
    Kita.storable (usage_at sender (Kita.token_usage st) + n) = true ->
    exists st',
      Kita.handle_message_to_openai create st sender content conv_id reply
        = Ok st' /\
      Kita.conversation_memory st' conv_id
        = newest Kita.maxlen
            (memory ++ [user_turn; Kita.mkturn "assistant" (strip s)]) /\
      Kita.sent st' = Kita.sent st ++ [(reply, strip s)] /\
      usage_at sender (Kita.token_usage st')
        = (usage_at sender (Kita.token_usage st) + n)%Z /\
      (forall u, u <> sender ->
                 usage_at u (Kita.token_usage st')
                 = usage_at u (Kita.token_usage st)) /\
      (forall u k, Kita.usage_get u (Kita.token_usage st') = Some k ->
                   Kita.saved_usage st' u = Some k).
Proof.
  intros create st sender content conv_id reply s choices n user_turn memory.
  apply answer_effect.
Qed.

Lemma answered_prompt_witness :
  exists st',
    Kita.handle_message_to_openai create_answers kita_start 42
      "@**kita** hello" conv_research_ml reply_ml = Ok st' /\
    Kita.conversation_memory st' conv_research_ml
      = [Kita.mkturn "user" "hello"; Kita.mkturn "assistant" "Hello!"] /\
    usage_at 42 (Kita.token_usage st') = 12%Z.
Proof.
  destruct (@answered_prompt
              create_answers kita_start 42 "@**kita** hello"
              conv_research_ml reply_ml " Hello! " [] 12)
    as [st' [H [Hm [_ [Hu _]]]]].
  - vm_compute. discriminate.
  - reflexivity.
  - simpl. unfold Kita.maxlen. lia.
  - reflexivity.
  - discriminate.
  - reflexivity.
  - reflexivity.
  - reflexivity.
  - reflexivity.
  - exists st'. split; [exact H|]. split; [exact Hm | exact Hu].
Defined.

(** X24.  The quota stops a sender only after it is passed: a sender
    still within quota is answered even when the answer takes the count
    over the limit (the database storing the counts), and the sender's
    next message gets the quota text, without a call of the model and
    without a change of any memory or count. *)
Theorem quota_is_a_soft_limit :
  forall (create create' : list Kita.turn -> Kita.completion)
         (st : Kita.state) (sender : Z) (content content' : string)
         (conv_id conv_id' : option Kita.conv_key) (reply reply' : Message.t)
         (s : string) (choices : list (option string)) (n : Z),
    (usage_at sender (Kita.token_usage st) <= Kita.max_tokens)%Z ->
    (Kita.max_tokens < usage_at sender (Kita.token_usage st) + n)%Z ->
    Kita.hashable_id conv_id = true ->
    (List.length (Kita.conversation_memory st conv_id) <= Kita.maxlen)%nat ->
    create (newest Kita.maxlen
              (Kita.conversation_memory st conv_id
               ++ [Kita.mkturn "user" (Kita.drop_mention content)]))
    = Kita.Response (Some s :: choices) (Some n) ->
    strip s <> EmptyString ->
    Kita.db_accepts st = true ->
    forallb Kita.storable_item (Kita.token_usage st) = true ->
    Kita.storable sender = true ->
    Kita.storable (usage_at sender (Kita.token_usage st) + n) = true ->
    exists st',
      Kita.handle_message_to_openai create st sender content conv_id reply
        = Ok st' /\
      Kita.sent st' = Kita.sent st ++ [(reply, strip s)] /\
      Kita.handle_message_to_openai create' st' sender content' conv_id'
                                    reply'
        = Ok (Kita.send st' reply' Kita.quota_text).
Proof.
  intros create create' st sender content content' conv_id conv_id'
         reply reply' s choices n Hq Hover Hh Hlen Hc Hs Hdb Hfit Hsender
         Hsum.
  destruct (@answer_effect create st sender content conv_id reply
                           s choices n Hq Hh Hlen Hc Hs Hdb Hfit Hsender
                           Hsum)
    as [st' [H [_ [Hsent [Hu _]]]]].
  exists st'. split; [assumption|]. split; [assumption|].
  unfold Kita.handle_message_to_openai.
  assert (Hr : Kita.usage_read sender (Kita.token_usage st')
               = (usage_at sender (Kita.token_usage st'),
                  Kita.token_usage st')).
  { unfold Kita.usage_read, usage_at in *.
    destruct (Kita.usage_get sender (Kita.token_usage st')) as [k|];
      [reflexivity|].
    unfold Kita.max_tokens in *. lia. }
  rewrite Hr, Hu.
  destruct (Z.gtb_spec (usage_at sender (Kita.token_usage st) + n)
                       Kita.max_tokens); [|lia].
  now destruct st'.
Qed.

Lemma quota_is_a_soft_limit_witness :
  exists st',
    Kita.handle_message_to_openai
      create_answers kita_near_quota
      42 "@**kita** hello" conv_research_ml reply_ml = Ok st' /\
    Kita.handle_message_to_openai create_answers st' 42 "@**kita** again"
                                  conv_research_ml reply_ml
    = Ok (Kita.send st' reply_ml Kita.quota_text).
Proof.
  destruct (@quota_is_a_soft_limit
              create_answers create_answers kita_near_quota
              42 "@**kita** hello" "@**kita** again"
              conv_research_ml conv_research_ml reply_ml reply_ml
              " Hello! " [] 12)
    as [st' [H [_ H']]].
  - vm_compute. discriminate.
  - vm_compute. reflexivity.
  - reflexivity.
  - simpl. unfold Kita.maxlen. lia.
  - reflexivity.
  - discriminate.
  - reflexivity.
  - reflexivity.
  - reflexivity.
  - reflexivity.
  - exists st'. split; [exact H | exact H'].
Defined.

(** X30.  When the counts cannot be saved after an answer (the database
    takes no write, or a count has left the 64 bits of its column), the
    answer is not sent: the sender gets the error text.  The conversation
    holds the user's turn and the answer all the same, the tokens are
    added to the count in memory, and the table stays as it was. *)
Theorem failed_save_sends_the_error_text :
  forall (create : list Kita.turn -> Kita.completion) (st : Kita.state)
         (sender : Z) (content : string) (conv_id : option Kita.conv_key)
         (reply : Message.t) (s : string) (choices : list (option string))
         (n : Z),
    let user_turn := Kita.mkturn "user" (Kita.drop_mention content) in
    let memory := Kita.conversation_memory st conv_id in
    (usage_at sender (Kita.token_usage st) <= Kita.max_tokens)%Z ->
    Kita.hashable_id conv_id = true ->
    (List.length memory <= Kita.maxlen)%nat ->
    create (newest Kita.maxlen (memory ++ [user_turn]))
    = Kita.Response (Some s :: choices) (Some n) ->
    strip s <> EmptyString ->
    Kita.db_accepts st = false \/
    Kita.storable (usage_at sender (Kita.token_usage st) + n) = false ->
    exists st',
      Kita.handle_message_to_openai create st sender content conv_id reply
        = Ok st' /\
      Kita.sent st' = Kita.sent st ++ [(reply, Kita.error_text)] /\
      Kita.conversation_memory st' conv_id
        = newest Kita.maxlen
            (memory ++ [user_turn; Kita.mkturn "assistant" (strip s)]) /\
      usage_at sender (Kita.token_usage st')
        = (usage_at sender (Kita.token_usage st) + n)%Z /\
      Kita.saved_usage st' = Kita.saved_usage st.
Proof.
  intros create st sender content conv_id reply s choices n user_turn memory
         Hq Hh Hlen Hc Hs Hbad.
  destruct (@state_at_the_save create st sender content conv_id reply s
                               choices n Hq Hh Hlen Hc Hs)
    as [H [Hmem [_ [Hu [Hsaved [Hacc Hsent]]]]]].
  fold user_turn memory in H, Hmem.
  set (d := snd (Kita.usage_read sender (Kita.token_usage st))) in *.
  set (st2 := Kita.add_tokens _ sender n) in *.
  assert (Hsave : exists e, Kita.save_token_usage st2 = Raise e).
  { unfold Kita.save_token_usage. rewrite Hacc.
    destruct Hbad as [Hdb|Hsum]; [rewrite Hdb; simpl; eauto|].
    destruct (Kita.db_accepts st); simpl; [|eauto].
    destruct (forallb Kita.storable_item (Kita.token_usage st2)) eqn:Hall;
      [|eauto].
    exfalso. rewrite forallb_forall in Hall. rewrite Hu in Hall.
    assert (Hin : In (sender, (usage_at sender (Kita.token_usage st) + n)%Z)
                     (Kita.usage_set
                        sender (usage_at sender (Kita.token_usage st) + n)
                        d)).
    { clear. induction d as [|[u' n'] d IH]; simpl; [now left|].
      destruct (Z.eqb_spec sender u') as [<-|Hne]; [now left | now right]. }
    apply Hall in Hin. unfold Kita.storable_item in Hin. simpl in Hin.
    apply andb_true_iff in Hin as [_ Hin]. congruence. }
  destruct Hsave as [e Hsave]. rewrite Hsave in H.
  exists (Kita.send st2 reply Kita.error_text).
  split; [exact H|]. simpl.
  split; [now rewrite Hsent|]. split; [exact Hmem|].
  split; [|exact Hsaved].
  rewrite Hu. unfold usage_at at 1. now rewrite usage_get_set, Z.eqb_refl.
Qed.

Lemma failed_save_sends_the_error_text_witness :
  exists st',
    Kita.handle_message_to_openai create_answers kita_offline 42
      "@**kita** hello" conv_research_ml reply_ml = Ok st' /\
    Kita.sent st' = [(reply_ml, Kita.error_text)] /\
    usage_at 42 (Kita.token_usage st') = 12%Z /\
    Kita.saved_usage st' 42 = None.
Proof.
  destruct (@failed_save_sends_the_error_text
              create_answers kita_offline 42 "@**kita** hello"
              conv_research_ml reply_ml " Hello! " [] 12)
    as [st' [H [Hs [_ [Hu Hsaved]]]]].
  - vm_compute. discriminate.
  - reflexivity.
  - simpl. unfold Kita.maxlen. lia.
  - reflexivity.
  - discriminate.
  - left. reflexivity.
  - exists st'. split; [exact H|]. split; [exact Hs|]. split; [exact Hu|].
    now rewrite Hsaved.
Defined.

Lemma complete_memory_bounded create st sender conv_id reply messages :
  memory_bounded st ->
  memory_bounded (fst (Kita.complete create st sender conv_id reply messages)).
Proof.
  intros Hb. unfold Kita.complete.
  destruct (create messages) as [e|[|[ai|] choices] total]; try exact Hb.
  destruct ai as [|c ai]; [exact Hb|].
  destruct (strip (String c ai)) as [|c' ai'] eqn:Hs; [exact Hb|].
  pose proof (remember_bounded conv_id
                (Kita.mkturn "assistant" (String c' ai')) Hb) as Hb1.
  destruct total as [n|]; [|exact Hb1].
  assert (Hb2 : memory_bounded
                  (Kita.add_tokens
                     (Kita.remember st conv_id
                        (Kita.mkturn "assistant" (String c' ai')))
                     sender n)).
  { unfold Kita.add_tokens.
    destruct (Kita.usage_read sender _) as [used d]. exact Hb1. }
  unfold Kita.save_token_usage.
  destruct (negb _); [exact Hb2|].
  destruct (forallb _ _); exact Hb2.
Qed.

(** X25.  [handle_message_to_openai] keeps every conversation within the
    capacity of its memory: when no conversation holds more than 10 turns
    before the call, none does after it, whatever the completion does. *)
Theorem memory_stays_bounded :
  forall (create : list Kita.turn -> Kita.completion) (st st' : Kita.state)
         (sender : Z) (content : string) (conv_id : option Kita.conv_key)
         (reply : Message.t),
    memory_bounded st ->
    Kita.handle_message_to_openai create st sender content conv_id reply
      = Ok st' ->
    memory_bounded st'.
Proof.
  intros create st st' sender content conv_id reply Hb.
  unfold Kita.handle_message_to_openai.
  destruct (Kita.usage_read sender (Kita.token_usage st)) as [used d].
  destruct (used >? Kita.max_tokens)%Z.
  { intros H. inversion H. exact Hb. }
  destruct (Kita.hashable_id conv_id); [|discriminate]. cbn [negb].
  set (st1 := Kita.remember (Kita.with_usage st d) conv_id
                (Kita.mkturn "user" (Kita.drop_mention content))).
  assert (Hb1 : memory_bounded st1)
    by (apply remember_bounded; exact Hb).
  pose proof (@complete_memory_bounded
                create st1 sender conv_id reply
                (Kita.conversation_memory st1 conv_id) Hb1) as Hb2.
  destruct (Kita.complete create st1 sender conv_id reply _) as [st2 [e|]];
    cbn [is_Exception]; intros H; inversion H; subst st'; exact Hb2.
Qed.

Lemma memory_stays_bounded_witness :
  (List.length (Kita.conversation_memory kita_after_answer conv_research_ml)
   <= Kita.maxlen)%nat.
Proof.
  refine (@memory_stays_bounded create_answers kita_start kita_after_answer
            42 "@**kita** hello" conv_research_ml reply_ml _ _
            conv_research_ml).
  - intros k. simpl. unfold Kita.maxlen. lia.
  - reflexivity.
Defined.

(** ** The parser: what the pattern takes *)

Section ParserFacts.
Variable isalnum : Z -> bool.
Variable args : Type.
Variable shlex_split : string -> result (list string).
Variable docopt : string -> list string -> option args.

(** X26.  A mention that no white space follows is not a command: for
    [@**name**] alone, or with text glued to it, [parse_zulip_message]
    returns [None]. *)
Theorem mention_needs_white_space :
  forall (message doc : string) (name rest : list Z),
    code_points message = mention_of name ++ rest ->
    all_chars (is_word isalnum) name = true ->
    stops is_space rest = true ->
    Parser.parse_zulip_message isalnum shlex_split docopt message doc
    = Ok None.
Proof.
  intros message doc name rest Hm Hword Hrest.
  unfold Parser.parse_zulip_message.
  now rewrite (@re_match_glued isalnum message name rest Hm Hword Hrest).
Qed.

(** X27.  Only the first line after the mention and its white space is
    parsed: text after the first line feed of the remainder changes
    nothing in what [parse_zulip_message] returns. *)
Theorem only_the_first_line_is_parsed :
  forall (message message' doc : string) (name ws line more : list Z),
    code_points message = mention_of name ++ ws ++ line ++ 10%Z :: more ->
    code_points message' = mention_of name ++ ws ++ line ->
    name <> [] -> all_chars (is_word isalnum) name = true ->
    ws <> [] -> all_chars is_space ws = true ->
    line <> [] -> stops is_space line = true ->
    all_chars not_newline line = true ->
    Parser.parse_zulip_message isalnum shlex_split docopt message doc
    = Parser.parse_zulip_message isalnum shlex_split docopt message' doc.
Proof.
  intros message message' doc name ws line more Hm Hm' Hname Hword Hws Hspace
         Hline Hstop Hnl.
  assert (Hstop' : stops is_space (line ++ 10%Z :: more) = true)
    by (destruct line; [contradiction | exact Hstop]).
  rewrite <- (app_nil_r line) in Hm'.
  assert (Hstop'' : stops is_space (line ++ []) = true)
    by (destruct line; [contradiction | exact Hstop]).
  unfold Parser.parse_zulip_message.
  rewrite (@re_match_first_line isalnum message name ws _ Hm Hname Hword
                                Hws Hspace Hstop').
  rewrite (@re_match_first_line isalnum message' name ws _ Hm' Hname Hword
                                Hws Hspace Hstop'').
  rewrite (@first_line_of_a_line line (10%Z :: more) Hnl eq_refl).
  now rewrite (@first_line_of_a_line line [] Hnl eq_refl).
Qed.

(** X29.  When [shlex.split] raises [ValueError] on the command line,
    [parse_zulip_message] raises nothing and returns one prompt: the
    stripped first line of what follows the mention and its white space.
    For a remainder of one line that is the whole stripped remainder. *)
Theorem tokenization_failure_gives_prompt :
  forall (message doc : string) (name ws rest : list Z) (e : exn),
    code_points message = mention_of name ++ ws ++ rest ->
    name <> [] -> all_chars (is_word isalnum) name = true ->
    ws <> [] -> all_chars is_space ws = true ->
    stops is_space rest = true ->
    shlex_split ("bot " ++ strip (text (first_line rest)))%string = Raise e ->
    Parser.is_ValueError e = true ->
    Parser.parse_zulip_message isalnum shlex_split docopt message doc
    = Ok (Some (Parser.Prompt [strip (text (first_line rest))]))
    /\ (all_chars not_newline rest = true -> first_line rest = rest).
Proof.
  intros message doc name ws rest e Hm Hname Hword Hws Hspace Hrest Hs He.
  split.
  - unfold Parser.parse_zulip_message.
    rewrite (@re_match_first_line isalnum message name ws rest Hm Hname
                                  Hword Hws Hspace Hrest).
    now rewrite Hs, He.
  - intros Hnl. rewrite <- (app_nil_r rest) at 1.
    now apply first_line_of_a_line.
Qed.

End ParserFacts.

Lemma mention_needs_white_space_witness :
  Parser.parse_zulip_message latin1_alnum Shlex.split
                             (fun _ tokens => Some tokens)
                             "@**café**hello" "Usage: ..."
  = Ok None.
Proof.
  apply (@mention_needs_white_space
           latin1_alnum (list string) Shlex.split (fun _ tokens => Some tokens)
           "@**café**hello" "Usage: ..."
           (code_points "café") (code_points "hello"));
    reflexivity.
Defined.

Lemma only_the_first_line_is_parsed_witness :
  Parser.parse_zulip_message
    latin1_alnum Shlex.split (fun _ tokens => Some tokens)
    ("@**kita** " ++ "hello" ++ String newline "world") "Usage: ..."
  = Parser.parse_zulip_message
      latin1_alnum Shlex.split (fun _ tokens => Some tokens)
      ("@**kita** " ++ "hello") "Usage: ...".
Proof.
  apply (@only_the_first_line_is_parsed
           latin1_alnum (list string) Shlex.split (fun _ tokens => Some tokens)
           ("@**kita** " ++ "hello" ++ String newline "world")
           ("@**kita** " ++ "hello") "Usage: ..."
           (code_points "kita") (code_points " ") (code_points "hello")
           (code_points "world"));
    solve [discriminate | reflexivity].
Defined.

Lemma tokenization_failure_gives_prompt_witness :
  Parser.parse_zulip_message
    latin1_alnum Shlex.split (fun _ tokens => Some tokens)
    "@**kita**  don't panic  " "Usage: ..."
  = Ok (Some (Parser.Prompt ["don't panic"])).
Proof.
  apply (proj1 (@tokenization_failure_gives_prompt
                  latin1_alnum (list string) Shlex.split
                  (fun _ tokens => Some tokens)
                  "@**kita**  don't panic  " "Usage: ..."
                  (code_points "kita") (code_points "  ")
                  (code_points "don't panic  ") ValueError
                  eq_refl ltac:(discriminate) eq_refl ltac:(discriminate)
                  eq_refl eq_refl eq_refl eq_refl)).
Defined.
